(** * fetch-event-source: the server-sent-events parser of [src/parse.ts]

    A shallow embedding of [getLines] and [getMessages] and the properties of
    the two stages.

    Conventions of the embedding.
    - A [Uint8Array] is a [list Z]; indices, lengths and the sentinel [-1] are
      [Z], as JavaScript numbers are.
    - An async generator over an async iterator is a function from the finite
      list of values the iterator delivers before it is exhausted to the list
      of values the generator yields.
    - The [while] and [for] loops take fuel; running out of fuel is [None].
      The loops are shown to end within the fuel they are given.
    - A JavaScript string is represented by the bytes of its UTF-8 encoding,
      as a [string]; see [decode].
    - A JavaScript number is a [Number]: an integer that a double holds
      exactly, the negative zero, or the double for a larger integer; see
      [number_of]. *)

From Stdlib Require Import ZArith Lia String Ascii.
From stdpp Require Import base list gmap strings.

#[local] Open Scope Z_scope.

(** ** Typed arrays *)

Module ControlChars.
Definition NewLine : Z := 10.
Definition CarriageReturn : Z := 13.
Definition Space : Z := 32.
Definition Colon : Z := 58.
End ControlChars.

Definition Uint8Array := list Z.

(** [a.length] *)
Definition len (a : Uint8Array) : Z := Z.of_nat (length a).

(** [a[i]]: [undefined] ([None]) outside of the array. *)
Definition byte_at (a : Uint8Array) (i : Z) : option Z :=
  if i <? 0 then None else a !! Z.to_nat i.

(** [a[i] === c] *)
Definition byte_is (a : Uint8Array) (i : Z) (c : Z) : bool :=
  match byte_at a i with
  | Some b => b =? c
  | None => false
  end.

(** The index clamping of [TypedArray.prototype.subarray]: a negative index
    counts from the end, and the result is kept within [0, length]. *)
Definition relative_index (length i : Z) : Z :=
  if i <? 0 then Z.max (length + i) 0 else Z.min i length.

(** [a.subarray(begin, end)] *)
Definition subarray (a : Uint8Array) (begin end_ : Z) : Uint8Array :=
  let b := relative_index (len a) begin in
  let e := relative_index (len a) end_ in
  take (Z.to_nat (e - b)) (drop (Z.to_nat b) a).

(** [a.subarray(begin)] *)
Definition subarray_from (a : Uint8Array) (begin : Z) : Uint8Array :=
  subarray a begin (len a).

(** [concat(a, b)]: a fresh array holding [a] followed by [b]. *)
Definition concat (a b : Uint8Array) : Uint8Array := a ++ b.

(** ** getLines *)

(** What [getLines] yields: [{ line, fieldLength }]. *)
Record Line := mkLine { line : Uint8Array; fieldLength : Z }.

(** The variables of [getLines] that live across chunks; [curFieldLength] is
    the variable [fieldLength], whose name the field of [Line] has. *)
Record LinesState := mkLinesState {
  buffer : option Uint8Array;
  position : Z;
  curFieldLength : Z;
  discardTrailingNewline : bool
}.

(** Before the first chunk [buffer] is undefined and the flag is off;
    [position] and [fieldLength] are assigned when the first chunk arrives. *)
Definition initial_state : LinesState :=
  mkLinesState None 0 (-1) false.

(** The inner loop
    [for (; position < bufLength && lineEnd === -1; ++position) switch ...].
    It returns [(position, fieldLength, discardTrailingNewline, lineEnd)]. *)
Fixpoint scan_line (fuel : nat) (buf : Uint8Array) (bufLength lineStart : Z)
    (position fieldLength : Z) (discard : bool) (lineEnd : Z)
    : option (Z * Z * bool * Z) :=
  if (position <? bufLength) && (lineEnd =? -1) then
    match fuel with
    | O => None
    | S fuel' =>
        if byte_is buf position ControlChars.Colon then
          let fieldLength' :=
            if fieldLength =? -1 then position - lineStart else fieldLength in
          scan_line fuel' buf bufLength lineStart (position + 1)
            fieldLength' discard lineEnd
        else if byte_is buf position ControlChars.CarriageReturn then
          scan_line fuel' buf bufLength lineStart (position + 1)
            fieldLength true position
        else if byte_is buf position ControlChars.NewLine then
          scan_line fuel' buf bufLength lineStart (position + 1)
            fieldLength discard position
        else
          scan_line fuel' buf bufLength lineStart (position + 1)
            fieldLength discard lineEnd
    end
  else Some (position, fieldLength, discard, lineEnd).

(** The loop [while (position < bufLength) { ... }] over one buffer. It
    returns [(lineStart, position, fieldLength, discardTrailingNewline)] at
    the exit of the loop and the lines yielded on the way. *)
Fixpoint read_lines (fuel : nat) (buf : Uint8Array) (bufLength : Z)
    (lineStart position fieldLength : Z) (discard : bool)
    : option (Z * Z * Z * bool * list Line) :=
  if position <? bufLength then
    match fuel with
    | O => None
    | S fuel' =>
        let skip := discard && byte_is buf position ControlChars.NewLine in
        let position1 := if skip then position + 1 else position in
        let lineStart1 := if skip then position1 else lineStart in
        match scan_line (Z.to_nat bufLength) buf bufLength lineStart1
                position1 fieldLength false (-1) with
        | None => None
        | Some (position2, fieldLength2, discard2, lineEnd) =>
            if lineEnd =? -1 then
              Some (lineStart1, position2, fieldLength2, discard2, [])
            else
              match read_lines fuel' buf bufLength position2 position2 (-1)
                      discard2 with
              | None => None
              | Some (ls, p, fl, d, out) =>
                  Some (ls, p, fl, d,
                        mkLine (subarray buf lineStart1 lineEnd) fieldLength2
                        :: out)
              end
        end
    end
  else Some (lineStart, position, fieldLength, discard, []).

(** The body of [for await (const arr of iter)]: one chunk. *)
Definition getLines_chunk (st : LinesState) (arr : Uint8Array)
    : option (LinesState * list Line) :=
  let '(buf, position0, fieldLength0) :=
    match buffer st with
    | Some old => (concat old arr, position st, curFieldLength st)
    | None => (arr, 0, -1)
    end in
  let bufLength := len buf in
  match read_lines (length buf) buf bufLength 0 position0 fieldLength0
          (discardTrailingNewline st) with
  | None => None
  | Some (lineStart, position1, fieldLength1, discard1, out) =>
      let st' :=
        if lineStart =? bufLength then
          mkLinesState None position1 fieldLength1 discard1
        else if negb (lineStart =? 0) then
          mkLinesState (Some (subarray_from buf lineStart))
            (position1 - lineStart) fieldLength1 discard1
        else
          mkLinesState (Some buf) position1 fieldLength1 discard1 in
      Some (st', out)
  end.

(** The generator, from a given state, over the chunks the iterator delivers. *)
Fixpoint getLines_from (st : LinesState) (chunks : list Uint8Array)
    : option (LinesState * list Line) :=
  match chunks with
  | [] => Some (st, [])
  | arr :: rest =>
      match getLines_chunk st arr with
      | None => None
      | Some (st', out) =>
          match getLines_from st' rest with
          | None => None
          | Some (st'', out') => Some (st'', out ++ out')
          end
      end
  end.

Definition getLines (chunks : list Uint8Array) : option (list Line) :=
  snd <$> getLines_from initial_state chunks.

(** ** Strings

    A JavaScript string is represented by the bytes of its UTF-8 encoding.
    On well-formed input [TextDecoder.decode] is then the identity, but for a
    byte order mark at the very start, which a decoder made by
    [new TextDecoder()] drops on every call. Ill-formed input, which the
    decoder replaces by U+FFFD, keeps its bytes here. *)

Definition ascii_of_byte (b : Z) : ascii := ascii_of_N (Z.to_N (b mod 256)).

Definition byte_of_ascii (c : ascii) : Z := Z.of_N (N_of_ascii c).

Definition strip_bom (l : Uint8Array) : Uint8Array :=
  match l with
  | b0 :: b1 :: b2 :: l' =>
      if (b0 =? 239) && (b1 =? 187) && (b2 =? 191) then l' else l
  | _ => l
  end.

(** [decoder.decode(l)] *)
Definition decode (l : Uint8Array) : string :=
  string_of_list_ascii (ascii_of_byte <$> strip_bom l).

(** [new TextEncoder().encode(s)] *)
Definition encode (s : string) : Uint8Array :=
  byte_of_ascii <$> list_ascii_of_string s.

(** The line feed as a string. *)
Definition LF : string := String (ascii_of_byte ControlChars.NewLine) "".

(** *** parseInt(value, 10)

    The white space that [parseInt] trims is that of ECMAScript's
    [StrWhiteSpaceChar]: TAB, LF, VT, FF, CR, SP, and in UTF-8 the two and
    three byte forms of U+00A0, U+1680, U+2000 to U+200A, U+2028, U+2029,
    U+202F, U+205F, U+3000 and U+FEFF. *)

Definition white_space1 (b : Z) : bool :=
  ((9 <=? b) && (b <=? 13)) || (b =? 32).

Definition white_space2 (b0 b1 : Z) : bool := (b0 =? 194) && (b1 =? 160).

Definition white_space3 (b0 b1 b2 : Z) : bool :=
  ((b0 =? 225) && (b1 =? 154) && (b2 =? 128)) ||
  ((b0 =? 226) && (b1 =? 128) &&
     (((128 <=? b2) && (b2 <=? 138)) || (b2 =? 168) || (b2 =? 169) ||
      (b2 =? 175))) ||
  ((b0 =? 226) && (b1 =? 129) && (b2 =? 159)) ||
  ((b0 =? 227) && (b1 =? 128) && (b2 =? 128)) ||
  ((b0 =? 239) && (b1 =? 187) && (b2 =? 191)).

Fixpoint trim_start (l : list Z) : list Z :=
  match l with
  | [] => []
  | b0 :: l1 =>
      if white_space1 b0 then trim_start l1
      else
        match l1 with
        | [] => l
        | b1 :: l2 =>
            if white_space2 b0 b1 then trim_start l2
            else
              match l2 with
              | [] => l
              | b2 :: l3 =>
                  if white_space3 b0 b1 b2 then trim_start l3 else l
              end
        end
  end.

Definition is_digit (b : Z) : bool := (48 <=? b) && (b <=? 57).

(** The value of the longest prefix of decimal digits. *)
Fixpoint digits_value (acc : Z) (l : list Z) : Z :=
  match l with
  | [] => acc
  | b :: l' =>
      if is_digit b then digits_value (10 * acc + (b - 48)) l' else acc
  end.

(** *** Numbers

    [parseInt] returns a [number], a double. Of the integer [sign * n] that
    the digits denote it makes, by its last two steps: [-0] or [+0] when [n]
    is 0, and otherwise the double for [sign * n]. A double holds every
    integer of magnitude at most 2^53 exactly; beyond that the double is the
    integer rounded, or an infinity, and which one is left open here:
    [Rounded m] stands for the double that the platform makes of [m]. *)
Inductive Number :=
  | Integer (n : Z)
  | NegativeZero
  | Rounded (m : Z).

#[global] Instance Number_eq_dec : EqDecision Number.
Proof. solve_decision. Defined.

(** The largest magnitude up to which every integer is a double. *)
Definition max_exact : Z := 2 ^ 53.

Definition number_of (sign n : Z) : Number :=
  if n =? 0 then (if sign =? -1 then NegativeZero else Integer 0)
  else if n <=? max_exact then Integer (sign * n)
  else Rounded (sign * n).

(** [parseInt] on the code units of its argument: [None] is [NaN]. *)
Definition parseInt_codes (l : list Z) : option Number :=
  let s := trim_start l in
  let '(sign, s) :=
    match s with
    | b :: s' =>
        if b =? 45 then (-1, s') else if b =? 43 then (1, s') else (1, s)
    | [] => (1, s)
    end in
  match s with
  | b :: _ =>
      if is_digit b then Some (number_of sign (digits_value 0 s)) else None
  | [] => None
  end.

Definition parseInt (value : string) : option Number :=
  parseInt_codes (encode value).

(** ** getMessages *)

(** The value of a property of a message: a string, or the number of
    [retry]. *)
Inductive Value :=
  | VString (s : string)
  | VNumber (n : Number).

#[global] Instance Value_eq_dec : EqDecision Value.
Proof. solve_decision. Defined.

(** An [EventSourceMessage] is an object with the properties that have been
    assigned: [{}] is the empty map. *)
Abbreviation EventSourceMessage := (gmap string Value).

(** [decoder.decode(line.subarray(0, fieldLength))] *)
Definition field_of (ln : Line) : string :=
  decode (subarray (line ln) 0 (fieldLength ln)).

(** [fieldLength + (line[fieldLength + 1] === ControlChars.Space ? 2 : 1)] *)
Definition valueOffset (ln : Line) : Z :=
  fieldLength ln +
  (if byte_is (line ln) (fieldLength ln + 1) ControlChars.Space then 2 else 1).

(** [decoder.decode(line.subarray(valueOffset))] *)
Definition value_of (ln : Line) : string :=
  decode (subarray_from (line ln) (valueOffset ln)).

(** The body of [for await (const { line, fieldLength } of iter)]: the message
    in progress after the line, and what is yielded. *)
Definition getMessages_line (message : EventSourceMessage) (ln : Line)
    : EventSourceMessage * list EventSourceMessage :=
  if len (line ln) =? 0 then
    (* [for (const _ in message) { yield message; message = {}; break; }] *)
    if decide (message = ∅) then (message, []) else (∅, [message])
  else if 0 <? fieldLength ln then
    let field := field_of ln in
    if decide (field = "retry") then
      match parseInt (value_of ln) with
      | None => (message, [])
      | Some n => (<[field := VNumber n]> message, [])
      end
    else if decide (field = "data" \/ field = "event" \/ field = "id") then
      (<[field := VString (value_of ln)]> message, [])
    else (message, [])
  else (message, []).

Fixpoint getMessages_from (message : EventSourceMessage) (lines : list Line)
    : EventSourceMessage * list EventSourceMessage :=
  match lines with
  | [] => (message, [])
  | ln :: rest =>
      let '(message1, out1) := getMessages_line message ln in
      let '(message2, out2) := getMessages_from message1 rest in
      (message2, out1 ++ out2)
  end.

Definition getMessages (lines : list Line) : list EventSourceMessage :=
  (getMessages_from ∅ lines).2.

(** [getMessages(getLines(getBytes(stream)))] *)
Definition parseStream (chunks : list Uint8Array)
    : option (list EventSourceMessage) :=
  getMessages <$> getLines chunks.

(** ** The line assembler, one byte at a time

    The reference automaton that [getLines] is compared with: the line in
    progress, the offset of its first colon ([-1]: none yet) and the flag
    that a line feed right after a carriage return is to be dropped. It reads
    one byte at a time, so it does not know about chunks at all. *)

Record Pending := mkPending {
  pending : Uint8Array;
  separator : Z;
  skipNewline : bool
}.

Definition byte_step (s : Pending) (b : Z) : Pending * list Line :=
  if skipNewline s && (b =? ControlChars.NewLine) then
    (mkPending (pending s) (separator s) false, [])
  else if b =? ControlChars.Colon then
    (mkPending (pending s ++ [b])
       (if separator s =? -1 then len (pending s) else separator s) false, [])
  else if b =? ControlChars.CarriageReturn then
    (mkPending [] (-1) true, [mkLine (pending s) (separator s)])
  else if b =? ControlChars.NewLine then
    (mkPending [] (-1) false, [mkLine (pending s) (separator s)])
  else
    (mkPending (pending s ++ [b]) (separator s) false, []).

Fixpoint byte_run (s : Pending) (bs : list Z) : Pending * list Line :=
  match bs with
  | [] => (s, [])
  | b :: bs' =>
      let '(s1, out1) := byte_step s b in
      let '(s2, out2) := byte_run s1 bs' in
      (s2, out1 ++ out2)
  end.

Definition pending_start : Pending := mkPending [] (-1) false.

(** The bytes of all chunks, in order. *)
Definition all_bytes (chunks : list Uint8Array) : Uint8Array := mjoin chunks.

(** The lines of a byte sequence, whatever its chunks. *)
Definition lines_of (bytes : Uint8Array) : list Line :=
  (byte_run pending_start bytes).2.

(** One byte per chunk. *)
Definition byte_chunks (bytes : Uint8Array) : list Uint8Array :=
  (fun b => [b]) <$> bytes.

(** What a state of [getLines] stands for between two chunks. *)
Definition pending_of (st : LinesState) : Pending :=
  match buffer st with
  | Some old =>
      mkPending old (curFieldLength st) (discardTrailingNewline st)
  | None => mkPending [] (-1) (discardTrailingNewline st)
  end.

(** Between two chunks the read position is the end of the kept buffer. *)
Definition state_ok (st : LinesState) : Prop :=
  match buffer st with
  | Some old => position st = len old
  | None => True
  end.

(** The flag is only set at a line start, and an empty line in progress has
    no separator. *)
Definition pending_ok (s : Pending) : Prop :=
  (skipNewline s = true -> pending s = []) /\
  (pending s = [] -> separator s = -1).

(** The offset of the first colon of a line, [-1] when it has none. *)
Fixpoint first_colon (l : Uint8Array) : Z :=
  match l with
  | [] => -1
  | b :: l' =>
      if b =? ControlChars.Colon then 0
      else let r := first_colon l' in if r =? -1 then -1 else r + 1
  end.

Definition is_terminator (b : Z) : bool :=
  (b =? ControlChars.CarriageReturn) || (b =? ControlChars.NewLine).

Definition no_terminator (l : Uint8Array) : Prop :=
  Forall (fun b => is_terminator b = false) l.

(** What holds of the line in progress, and of every line yielded: no
    terminator inside, and the offset is that of the first colon. *)
Definition pending_line_ok (s : Pending) : Prop :=
  no_terminator (pending s) /\ separator s = first_colon (pending s).

Definition line_ok (ln : Line) : Prop :=
  no_terminator (line ln) /\ fieldLength ln = first_colon (line ln).

(** A line that assigns a property of the message in progress, whatever the
    message. *)
Definition sets_property (ln : Line) : Prop :=
  exists field value, forall message : EventSourceMessage,
    getMessages_line message ln = (<[field := value]> message, []).

(** A line that is not empty. *)
Definition nonblank (ln : Line) : Prop := len (line ln) <> 0.


(** The sign that [parseInt] reads: [-1] after a minus, [1] after a plus or
    nothing. *)
Definition sign_value (sign : list Z) : Z :=
  match sign with
  | b :: _ => if b =? 45 then -1 else 1
  | [] => 1
  end.

(** ** [concat], statement by statement *)

(** [new Uint8Array(n)]: [n] zero bytes. *)
Definition Uint8Array_new (n : Z) : Uint8Array := replicate (Z.to_nat n) 0.

(** [res.set(src, offset)]: [src] is copied into [res] from [offset] on; a
    source that does not fit is a [RangeError], which is [None]. *)
Definition array_set (res src : Uint8Array) (offset : Z)
    : option Uint8Array :=
  if (offset <? 0) || (len res <? offset + len src) then None
  else Some (take (Z.to_nat offset) res ++ src
             ++ drop (Z.to_nat (offset + len src)) res).

(** The body of [concat]: allocate, [res.set(a)], [res.set(b, a.length)]. *)
Definition concat_set (a b : Uint8Array) : option Uint8Array :=
  let res := Uint8Array_new (len a + len b) in
  match array_set res a 0 with
  | None => None
  | Some res1 => array_set res1 b (len a)
  end.

(** ** Lines on the wire *)

(** The three ways to end a line. *)
Inductive Terminator := EndLF | EndCR | EndCRLF.

Definition terminator_bytes (t : Terminator) : Uint8Array :=
  match t with
  | EndLF => [ControlChars.NewLine]
  | EndCR => [ControlChars.CarriageReturn]
  | EndCRLF => [ControlChars.CarriageReturn; ControlChars.NewLine]
  end.

(** Lines written one after the other, each with its terminator. *)
Fixpoint wire_lines (ls : list (Uint8Array * Terminator)) : Uint8Array :=
  match ls with
  | [] => []
  | (l, t) :: rest => l ++ terminator_bytes t ++ wire_lines rest
  end.

(** No line holds a terminator, and a line ended by a lone carriage return
    is not followed by a line feed (which would read as "\r\n"). *)
Fixpoint wire_ok (ls : list (Uint8Array * Terminator)) : Prop :=
  match ls with
  | [] => True
  | (l, t) :: rest =>
      no_terminator l /\
      (t = EndCR -> head (wire_lines rest) <> Some ControlChars.NewLine) /\
      wire_ok rest
  end.

(** The value that follows the separator: one leading space is dropped. *)
Definition strip_space (v : Uint8Array) : Uint8Array :=
  match v with
  | b :: v' => if b =? ControlChars.Space then v' else v
  | [] => []
  end.

(** A message as the interface [EventSourceMessage] declares it: [retry] is a
    number, [id], [event] and [data] are strings, and there is nothing
    else. *)
Definition conforms (message : EventSourceMessage) : Prop :=
  forall key value, message !! key = Some value ->
    (key = "retry"%string /\ exists n, value = VNumber n) \/
    ((key = "data"%string \/ key = "event"%string \/ key = "id"%string) /\
     exists s, value = VString s).

(** The retained buffer is never empty. *)
Definition buffer_nonempty (st : LinesState) : Prop :=
  match buffer st with
  | Some old => old <> []
  | None => True
  end.

(** ** Arrays: lengths, indexing and views *)

Section Arrays.
Implicit Types a b l : Uint8Array.

Lemma len_nil : len [] = 0.
Proof. reflexivity. Qed.

Lemma len_app a b : len (a ++ b) = len a + len b.
Proof. unfold len. rewrite length_app. lia. Qed.

Lemma len_cons x a : len (x :: a) = 1 + len a.
Proof. unfold len. simpl length. lia. Qed.

Lemma len_nonneg a : 0 <= len a.
Proof. unfold len. lia. Qed.

Lemma len_zero a : len a = 0 -> a = [].
Proof. unfold len. destruct a; simpl; [done | lia]. Qed.

Lemma byte_at_middle a x b : byte_at (a ++ x :: b) (len a) = Some x.
Proof.
  unfold byte_at, len.
  destruct (Z.ltb_spec (Z.of_nat (length a)) 0) as [H|_]; [lia|].
  rewrite Nat2Z.id. apply list_lookup_middle. reflexivity.
Qed.

Lemma byte_is_middle a x b c : byte_is (a ++ x :: b) (len a) c = (x =? c).
Proof. unfold byte_is. rewrite byte_at_middle. reflexivity. Qed.

Lemma subarray_middle a l b :
  subarray (a ++ l ++ b) (len a) (len a + len l) = l.
Proof.
  unfold subarray, relative_index.
  pose proof (len_nonneg a). pose proof (len_nonneg l).
  pose proof (len_nonneg b).
  rewrite !len_app.
  destruct (Z.ltb_spec (len a) 0); [lia|].
  destruct (Z.ltb_spec (len a + len l) 0); [lia|].
  rewrite !Z.min_l by lia.
  replace (len a + len l - len a) with (len l) by lia.
  unfold len. rewrite !Nat2Z.id.
  rewrite drop_app_length. apply take_app_length.
Qed.

Lemma subarray_from_suffix a l : subarray_from (a ++ l) (len a) = l.
Proof.
  unfold subarray_from. rewrite len_app.
  replace (a ++ l) with (a ++ l ++ []) by (by rewrite app_nil_r).
  apply subarray_middle.
Qed.
End Arrays.

Ltac len_simpl := rewrite ?len_app, ?len_cons, ?len_nil in *.
Ltac tuple_eq := repeat (f_equal; try lia).

(** ** The reference automaton *)

Section Automaton.
Implicit Types (s : Pending) (bs : list Z).

Lemma byte_run_app s bs1 bs2 :
  byte_run s (bs1 ++ bs2) =
  let '(s1, out1) := byte_run s bs1 in
  let '(s2, out2) := byte_run s1 bs2 in
  (s2, out1 ++ out2).
Proof.
  revert s. induction bs1 as [|b bs1 IH]; intros s; simpl.
  - destruct (byte_run s bs2); reflexivity.
  - destruct (byte_step s b) as [s1 o1]. rewrite IH.
    destruct (byte_run s1 bs1) as [s2 o2].
    destruct (byte_run s2 bs2) as [s3 o3].
    by rewrite app_assoc.
Qed.

(** Once the flag cannot fire, it does not matter. *)
Lemma byte_step_no_skip l fl d b :
  d && (b =? ControlChars.NewLine) = false ->
  byte_step (mkPending l fl d) b = byte_step (mkPending l fl false) b.
Proof. intros H. unfold byte_step. simpl. rewrite H. reflexivity. Qed.

Lemma byte_step_ok s b : pending_ok s -> pending_ok (byte_step s b).1.
Proof.
  intros [Hd Hl]. unfold byte_step, pending_ok.
  repeat case_match; simpl; repeat split; try done.
  all: intros E; by apply app_eq_nil in E as [_ ?].
Qed.

Lemma byte_run_ok s bs : pending_ok s -> pending_ok (byte_run s bs).1.
Proof.
  revert s. induction bs as [|b bs IH]; intros s Hs; simpl; [done|].
  pose proof (byte_step_ok s b Hs) as H1.
  destruct (byte_step s b) as [s1 o1]. specialize (IH s1 H1).
  destruct (byte_run s1 bs). exact IH.
Qed.
End Automaton.

(** ** [getLines] against the automaton *)

Section Refinement.
Implicit Types (pre cur suf l rest B : Uint8Array).

Lemma scan_line_unfold fuel B bl ls p fl d le :
  scan_line fuel B bl ls p fl d le =
  if (p <? bl) && (le =? -1) then
    match fuel with
    | O => None
    | S fuel' =>
        if byte_is B p ControlChars.Colon then
          scan_line fuel' B bl ls (p + 1)
            (if fl =? -1 then p - ls else fl) d le
        else if byte_is B p ControlChars.CarriageReturn then
          scan_line fuel' B bl ls (p + 1) fl true p
        else if byte_is B p ControlChars.NewLine then
          scan_line fuel' B bl ls (p + 1) fl d p
        else scan_line fuel' B bl ls (p + 1) fl d le
    end
  else Some (p, fl, d, le).
Proof. destruct fuel; reflexivity. Qed.

Lemma byte_is_here B pre cur b suf c :
  B = pre ++ cur ++ b :: suf ->
  byte_is B (len pre + len cur) c = (b =? c).
Proof. intros ->. rewrite app_assoc, <- len_app. apply byte_is_middle. Qed.

(** The inner loop either runs to the end of the buffer over bytes that end
    no line, or stops right after the first terminator. *)
Lemma scan_line_spec suf : forall pre cur fl fuel B,
  B = pre ++ cur ++ suf -> (length suf <= fuel)%nat ->
  (exists fl',
      no_terminator suf /\
      scan_line fuel B (len B) (len pre) (len pre + len cur) fl false (-1)
      = Some (len B, fl', false, -1) /\
      byte_run (mkPending cur fl false) suf
      = (mkPending (cur ++ suf) fl' false, []))
  \/
  (exists l t rest fl',
      suf = l ++ t :: rest /\ no_terminator l /\ is_terminator t = true /\
      scan_line fuel B (len B) (len pre) (len pre + len cur) fl false (-1)
      = Some (len pre + len cur + len l + 1, fl',
              t =? ControlChars.CarriageReturn, len pre + len cur + len l) /\
      byte_run (mkPending cur fl false) suf
      = let '(s, out) :=
          byte_run (mkPending [] (-1) (t =? ControlChars.CarriageReturn))
            rest in
        (s, mkLine (cur ++ l) fl' :: out)).
Proof.
  induction suf as [|b suf IH]; intros pre cur fl fuel B HB Hfuel.
  - left. exists fl. split; [constructor|]. split; [|by rewrite app_nil_r].
    rewrite scan_line_unfold. subst B. rewrite app_nil_r, len_app.
    by rewrite Z.ltb_irrefl.
  - destruct fuel as [|fuel]; [simpl in Hfuel; lia|].
    simpl in Hfuel. apply le_S_n in Hfuel.
    pose proof (len_nonneg pre) as Hp. pose proof (len_nonneg cur) as Hc.
    pose proof (len_nonneg suf) as Hs.
    assert (HB' : B = pre ++ (cur ++ [b]) ++ suf)
      by (subst B; by rewrite <- !app_assoc).
    assert (Hlt : (len pre + len cur <? len B) = true).
    { subst B. len_simpl. apply Z.ltb_lt. lia. }
    rewrite scan_line_unfold, Hlt. simpl andb.
    rewrite !(byte_is_here B pre cur b suf _ HB).
    replace (len pre + len cur - len pre) with (len cur) by lia.
    replace (len pre + len cur + 1) with (len pre + len (cur ++ [b]))
      by (len_simpl; lia).
    unfold ControlChars.Colon, ControlChars.CarriageReturn,
      ControlChars.NewLine in *.
    destruct (Z.eqb_spec b 58) as [E58|N58];
      [|destruct (Z.eqb_spec b 13) as [E13|N13];
        [|destruct (Z.eqb_spec b 10) as [E10|N10]]].
    + (* a colon *)
      subst b.
      destruct (IH pre (cur ++ [58]) (if fl =? -1 then len cur else fl)
                  fuel B HB' Hfuel)
        as [(fl' & Hnt & Hscan & Hrun)|(l & t & rest & fl' & -> & Hl & Ht & Hscan & Hrun)].
      * left. exists fl'. split; [by constructor|]. split; [exact Hscan|].
        simpl. rewrite Hrun. by rewrite <- app_assoc.
      * right. exists (58 :: l), t, rest, fl'.
        split; [done|]. split; [by constructor|]. split; [done|].
        split.
        -- rewrite Hscan. len_simpl. tuple_eq.
        -- simpl. rewrite Hrun. rewrite <- app_assoc.
           by destruct (byte_run _ rest).
    + (* a carriage return *)
      subst b. right. exists [], 13, suf, fl.
      split; [done|]. split; [constructor|]. split; [done|]. split.
      * rewrite scan_line_unfold.
        replace (len pre + len cur =? -1) with false
          by (symmetry; apply Z.eqb_neq; lia).
        rewrite andb_false_r. len_simpl. tuple_eq.
      * simpl. rewrite app_nil_r. reflexivity.
    + (* a line feed *)
      subst b. right. exists [], 10, suf, fl.
      split; [done|]. split; [constructor|]. split; [done|]. split.
      * rewrite scan_line_unfold.
        replace (len pre + len cur =? -1) with false
          by (symmetry; apply Z.eqb_neq; lia).
        rewrite andb_false_r. len_simpl. tuple_eq.
      * simpl. rewrite app_nil_r. reflexivity.
    + (* any other byte *)
      assert (Hb : is_terminator b = false).
      { unfold is_terminator, ControlChars.CarriageReturn,
          ControlChars.NewLine.
        apply orb_false_intro; by apply Z.eqb_neq. }
      assert (Hstep : byte_step (mkPending cur fl false) b
                      = (mkPending (cur ++ [b]) fl false, [])).
      { unfold byte_step, ControlChars.Colon, ControlChars.CarriageReturn,
          ControlChars.NewLine. simpl.
        destruct (Z.eqb_spec b 58); [done|].
        destruct (Z.eqb_spec b 13); [done|].
        destruct (Z.eqb_spec b 10); [done|]. reflexivity. }
      destruct (IH pre (cur ++ [b]) fl fuel B HB' Hfuel)
        as [(fl' & Hnt & Hscan & Hrun)|(l & t & rest & fl' & -> & Hl & Ht & Hscan & Hrun)].
      * left. exists fl'. split; [by constructor|]. split; [exact Hscan|].
        cbn [byte_run]. rewrite Hstep, Hrun. by rewrite <- app_assoc.
      * right. exists (b :: l), t, rest, fl'.
        split; [done|]. split; [by constructor|]. split; [done|].
        split.
        -- rewrite Hscan. len_simpl. tuple_eq.
        -- cbn [byte_run]. rewrite Hstep, Hrun. rewrite <- app_assoc.
           by destruct (byte_run _ rest).
Qed.

Lemma read_lines_unfold fuel B bl ls p fl d :
  read_lines fuel B bl ls p fl d =
  if p <? bl then
    match fuel with
    | O => None
    | S fuel' =>
        let skip := d && byte_is B p ControlChars.NewLine in
        let p1 := if skip then p + 1 else p in
        let ls1 := if skip then p1 else ls in
        match scan_line (Z.to_nat bl) B bl ls1 p1 fl false (-1) with
        | None => None
        | Some (p2, fl2, d2, lineEnd) =>
            if lineEnd =? -1 then Some (ls1, p2, fl2, d2, [])
            else
              match read_lines fuel' B bl p2 p2 (-1) d2 with
              | None => None
              | Some (ls', p', fl', d', out) =>
                  Some (ls', p', fl', d',
                        mkLine (subarray B ls1 lineEnd) fl2 :: out)
              end
        end
    end
  else Some (ls, p, fl, d, []).
Proof. destruct fuel; reflexivity. Qed.

(** The outer loop over one buffer: it ends at the end of the buffer,
    having yielded what the automaton emits on the bytes not yet read, and
    what is left from the last line start is the automaton's line in
    progress. *)
Lemma read_lines_spec fuel : forall suf pre cur fl d B,
  B = pre ++ cur ++ suf -> (length suf <= fuel)%nat ->
  (d = true -> cur = []) ->
  exists pre' cur' fl' d' out,
    read_lines fuel B (len B) (len pre) (len pre + len cur) fl d
    = Some (len pre', len B, fl', d', out) /\
    B = pre' ++ cur' /\
    byte_run (mkPending cur fl d) suf = (mkPending cur' fl' d', out).
Proof.
  induction fuel as [|fuel IH]; intros suf pre cur fl d B HB Hfuel Hd;
    (destruct suf as [|b suf]; [|simpl in Hfuel]).
  1,3: exists pre, cur, fl, d, []; rewrite read_lines_unfold; subst B;
       rewrite app_nil_r, len_app, Z.ltb_irrefl; done.
  { lia. }
  apply le_S_n in Hfuel.
  pose proof (len_nonneg pre) as Hp. pose proof (len_nonneg cur) as Hc.
  pose proof (len_nonneg suf) as Hs.
  assert (HlenB : len B = len pre + len cur + 1 + len suf)
    by (subst B; len_simpl; lia).
  rewrite read_lines_unfold.
  replace (len pre + len cur <? len B) with true
    by (symmetry; apply Z.ltb_lt; lia).
  rewrite (byte_is_here B pre cur b suf _ HB). cbv zeta.
  (* the line start, the position and the bytes left once a line feed that
     follows a carriage return has been skipped *)
  assert (exists pre1 cur1 suf1,
    B = pre1 ++ cur1 ++ suf1 /\ (length suf1 <= S (length suf))%nat /\
    (if d && (b =? ControlChars.NewLine)
     then len pre + len cur + 1 else len pre + len cur)
    = len pre1 + len cur1 /\
    (if d && (b =? ControlChars.NewLine)
     then (if d && (b =? ControlChars.NewLine)
           then len pre + len cur + 1 else len pre + len cur)
     else len pre) = len pre1 /\
    byte_run (mkPending cur fl d) (b :: suf)
    = byte_run (mkPending cur1 fl false) suf1)
    as (pre1 & cur1 & suf1 & HB1 & Hlen1 & Hpos & Hstart & Hrun1).
  { destruct (d && (b =? ControlChars.NewLine)) eqn:Hskip.
    - apply andb_prop in Hskip as [-> Hb]. rewrite (Hd eq_refl) in *.
      apply Z.eqb_eq in Hb. subst b.
      exists (pre ++ [ControlChars.NewLine]), [], suf.
      split; [subst B; by rewrite <- app_assoc|].
      split; [lia|].
      len_simpl. split; [lia|]. split; [lia|].
      cbn [byte_run]. unfold byte_step. simpl.
      by destruct (byte_run _ suf).
    - exists pre, cur, (b :: suf).
      split; [done|]. split; [done|].
      split; [done|]. split; [done|].
      cbn [byte_run]. by rewrite (byte_step_no_skip _ _ _ _ Hskip). }
  rewrite Hstart, Hpos, Hrun1. clear Hpos Hstart Hrun1.
  assert (Hfuel1 : (length suf1 <= Z.to_nat (len B))%nat).
  { rewrite HlenB. unfold len in *. lia. }
  destruct (scan_line_spec suf1 pre1 cur1 fl (Z.to_nat (len B)) B HB1 Hfuel1)
    as [(fl' & Hnt & -> & Hrun)
       |(l & t & rest & fl' & -> & Hl & Ht & -> & Hrun)].
  - (* no terminator left: the loop is left by [break] *)
    simpl. exists pre1, (cur1 ++ suf1), fl', false, [].
    split; [done|]. split; [done|]. exact Hrun.
  - (* a line is yielded and the loop goes on after its terminator *)
    pose proof (len_nonneg pre1). pose proof (len_nonneg cur1).
    pose proof (len_nonneg l).
    replace (len pre1 + len cur1 + len l =? -1) with false
      by (symmetry; apply Z.eqb_neq; lia).
    assert (HB2 : B = (pre1 ++ cur1 ++ l ++ [t]) ++ [] ++ rest).
    { rewrite HB1. simpl. by rewrite <- !app_assoc. }
    assert (Hfuel2 : (length rest <= fuel)%nat).
    { rewrite length_app in Hlen1. simpl in Hlen1. lia. }
    destruct (IH rest (pre1 ++ cur1 ++ l ++ [t]) []
                (-1) (t =? ControlChars.CarriageReturn) B HB2 Hfuel2
                (fun _ => eq_refl))
      as (pre' & cur' & fl'' & d' & out & Hread & HB' & Hrun').
    replace (len (pre1 ++ cur1 ++ l ++ [t]) + len [])
      with (len pre1 + len cur1 + len l + 1) in Hread
      by (len_simpl; lia).
    replace (len (pre1 ++ cur1 ++ l ++ [t]))
      with (len pre1 + len cur1 + len l + 1) in Hread
      by (len_simpl; lia).
    rewrite Hread.
    exists pre', cur', fl'', d',
      (mkLine (subarray B (len pre1) (len pre1 + len cur1 + len l)) fl'
       :: out).
    split; [done|]. split; [done|].
    rewrite Hrun, Hrun'. do 3 f_equal.
    rewrite HB1, <- Z.add_assoc, <- len_app.
    rewrite (app_assoc cur1 l (t :: rest)).
    symmetry. apply subarray_middle.
Qed.

(** One chunk: the lines yielded are those of the automaton on the bytes of
    the chunk, and the state kept for the next chunk is the automaton's. *)
Lemma getLines_chunk_spec st arr :
  state_ok st -> pending_ok (pending_of st) ->
  exists st',
    getLines_chunk st arr = Some (st', (byte_run (pending_of st) arr).2) /\
    pending_of st' = (byte_run (pending_of st) arr).1 /\
    state_ok st'.
Proof.
  intros Hst Hok.
  assert (exists cur fl,
    (let '(buf, position0, fieldLength0) :=
       match buffer st with
       | Some old => (concat old arr, position st, curFieldLength st)
       | None => (arr, 0, -1)
       end in (buf, position0, fieldLength0))
    = (cur ++ arr, len cur, fl) /\
    pending_of st = mkPending cur fl (discardTrailingNewline st))
    as (cur & fl & Hbuf & Habs).
  { unfold pending_of, state_ok in *.
    destruct (buffer st) as [old|].
    - exists old, (curFieldLength st). by rewrite Hst.
    - by exists [], (-1). }
  pose proof (byte_run_ok _ arr Hok) as Hok'.
  unfold getLines_chunk.
  destruct (match buffer st with
            | Some old => _ | None => _ end) as [[buf p0] fl0].
  injection Hbuf as -> -> ->.
  rewrite Habs in *. destruct Hok as [Hd _]. simpl in Hd.
  destruct (read_lines_spec (length (cur ++ arr)) arr [] cur fl
              (discardTrailingNewline st) (cur ++ arr) eq_refl
              ltac:(rewrite length_app; lia) Hd)
    as (pre' & cur' & fl' & d' & out & Hread & HB & Hrun).
  rewrite len_nil, Z.add_0_l in Hread. rewrite Hread, Hrun in *.
  destruct Hok' as [_ Hsep]. simpl in Hsep.
  pose proof (len_nonneg pre'). pose proof (len_nonneg cur').
  eexists. split; [reflexivity|]. rewrite HB, len_app. simpl.
  destruct (Z.eqb_spec (len pre') (len pre' + len cur')) as [E|N].
  - (* the buffer has been read to its end *)
    assert (cur' = []) as -> by (apply len_zero; lia).
    unfold pending_of, state_ok. simpl. by rewrite (Hsep eq_refl).
  - destruct (Z.eqb_spec (len pre') 0) as [E0|N0]; simpl.
    + (* the line in progress starts the buffer: the buffer is kept *)
      apply len_zero in E0. subst pre'.
      unfold pending_of, state_ok. simpl. split; [done|]. len_simpl. lia.
    + (* a view from the start of the line in progress *)
      unfold pending_of, state_ok. simpl.
      rewrite subarray_from_suffix. split; [done|]. lia.
Qed.

Lemma getLines_from_spec chunks : forall st,
  state_ok st -> pending_ok (pending_of st) ->
  exists st',
    getLines_from st chunks
    = Some (st', (byte_run (pending_of st) (all_bytes chunks)).2) /\
    pending_of st' = (byte_run (pending_of st) (all_bytes chunks)).1 /\
    state_ok st'.
Proof.
  induction chunks as [|arr chunks IH]; intros st Hst Hok.
  - exists st. done.
  - destruct (getLines_chunk_spec st arr Hst Hok)
      as (st1 & Hchunk & Habs1 & Hst1).
    pose proof (byte_run_ok _ arr Hok) as Hok1. rewrite <- Habs1 in Hok1.
    destruct (IH st1 Hst1 Hok1) as (st2 & Hrest & Habs2 & Hst2).
    exists st2. cbn [getLines_from]. rewrite Hchunk, Hrest.
    unfold all_bytes in *. cbn [mjoin list_join]. rewrite byte_run_app.
    rewrite Habs2, Habs1.
    destruct (byte_run (pending_of st) arr) as [s1 o1]. simpl.
    destruct (byte_run s1 (mjoin chunks)) as [s2 o2]. done.
Qed.

(** [getLines] always returns, and yields the lines of the automaton on the
    bytes of the chunks. *)
Lemma getLines_run chunks :
  getLines chunks = Some (lines_of (all_bytes chunks)).
Proof.
  unfold getLines.
  destruct (getLines_from_spec chunks initial_state)
    as (st' & -> & _); [done | by split |]. reflexivity.
Qed.

(** In particular [getLines] returns on every input: the loops end within
    their fuel. *)
Lemma getLines_total chunks : is_Some (getLines chunks).
Proof. rewrite getLines_run. by eexists. Qed.
End Refinement.


(** ** Properties of the lines *)

Section Lines.
Implicit Types (s : Pending) (l bs : Uint8Array) (ln : Line).

Lemma all_bytes_app (c1 c2 : list Uint8Array) :
  all_bytes (c1 ++ c2) = all_bytes c1 ++ all_bytes c2.
Proof. apply join_app. Qed.

Lemma all_bytes_cons bs (chunks : list Uint8Array) :
  all_bytes (bs :: chunks) = bs ++ all_bytes chunks.
Proof. reflexivity. Qed.

Lemma all_bytes_one_chunk bs : all_bytes [bs] = bs.
Proof. unfold all_bytes. simpl. apply app_nil_r. Qed.

Lemma all_bytes_byte_chunks bs : all_bytes (byte_chunks bs) = bs.
Proof.
  induction bs as [|b bs IH]; [done|].
  unfold all_bytes, byte_chunks in *. cbn. by f_equal.
Qed.

(** Bytes that end no line yield nothing. *)
Lemma byte_run_no_terminator bs : forall s,
  no_terminator bs -> (byte_run s bs).2 = [].
Proof.
  induction bs as [|b bs IH]; intros s Hnt; [done|].
  apply Forall_cons in Hnt as [Hb Hnt]. specialize (IH (byte_step s b).1 Hnt).
  cbn [byte_run].
  assert ((byte_step s b).2 = []) as Hout.
  { unfold byte_step, is_terminator in *.
    apply orb_false_elim in Hb as [-> ->]. by repeat case_match. }
  destruct (byte_step s b) as [s1 o1]. simpl in *. subst o1.
  by destruct (byte_run s1 bs).
Qed.

Lemma lines_of_app bs1 bs2 :
  lines_of (bs1 ++ bs2)
  = lines_of bs1 ++ (byte_run (byte_run pending_start bs1).1 bs2).2.
Proof.
  unfold lines_of. rewrite byte_run_app.
  destruct (byte_run pending_start bs1) as [s1 o1]. simpl.
  by destruct (byte_run s1 bs2).
Qed.

(** *** The separator offset *)

Lemma first_colon_range l : -1 <= first_colon l < len l \/ l = [].
Proof.
  induction l as [|b l IH]; [by right|]. left. simpl. len_simpl.
  pose proof (len_nonneg l).
  destruct (b =? ControlChars.Colon); [lia|].
  destruct (Z.eqb_spec (first_colon l) (-1)); [lia|].
  destruct IH as [?| ->]; [lia | done].
Qed.

Lemma first_colon_ge l : -1 <= first_colon l.
Proof. destruct (first_colon_range l) as [?| ->]; [lia | done]. Qed.

Lemma first_colon_none l :
  first_colon l = -1 <-> ControlChars.Colon ∉ l.
Proof.
  induction l as [|b l IH]; simpl.
  - split; [intros _; apply not_elem_of_nil | done].
  - pose proof (first_colon_ge l). rewrite not_elem_of_cons.
    destruct (Z.eqb_spec b ControlChars.Colon) as [->|Hb].
    + split; [done | by intros [? _]].
    + destruct (Z.eqb_spec (first_colon l) (-1)) as [E|N].
      * split; [|done]. intros _. split; [done|]. by apply IH.
      * split; [lia|]. intros [_ H']. apply IH in H'. lia.
Qed.

Lemma first_colon_at l1 l2 :
  ControlChars.Colon ∉ l1 ->
  first_colon (l1 ++ ControlChars.Colon :: l2) = len l1.
Proof.
  induction l1 as [|b l1 IH]; intros Hl1; [done|].
  apply not_elem_of_cons in Hl1 as [Hb Hl1]. specialize (IH Hl1).
  simpl. len_simpl. pose proof (len_nonneg l1).
  destruct (Z.eqb_spec b ControlChars.Colon); [done|].
  rewrite IH. destruct (Z.eqb_spec (len l1) (-1)); lia.
Qed.

Lemma first_colon_split l :
  first_colon l <> -1 ->
  exists l1 l2, l = l1 ++ ControlChars.Colon :: l2 /\
                (ControlChars.Colon ∉ l1) /\ first_colon l = len l1.
Proof.
  induction l as [|b l IH]; simpl; [done|].
  destruct (Z.eqb_spec b ControlChars.Colon) as [->|Hb].
  - intros _. exists [], l. split; [done|]. split; [|done].
    apply not_elem_of_nil.
  - destruct (Z.eqb_spec (first_colon l) (-1)) as [E|N]; [done|].
    intros _. destruct (IH N) as (l1 & l2 & -> & Hl1 & Hfc).
    exists (b :: l1), l2. split; [done|].
    split; [by apply not_elem_of_cons|]. len_simpl. lia.
Qed.

Lemma first_colon_snoc l b :
  first_colon (l ++ [b])
  = if first_colon l =? -1
    then (if b =? ControlChars.Colon then len l else -1)
    else first_colon l.
Proof.
  induction l as [|c l IH]; simpl.
  - by destruct (b =? ControlChars.Colon).
  - len_simpl. pose proof (len_nonneg l). pose proof (first_colon_ge l).
    destruct (c =? ControlChars.Colon); [done|]. rewrite IH.
    destruct (Z.eqb_spec (first_colon l) (-1)) as [E|N].
    + destruct (b =? ControlChars.Colon); [|done]. simpl.
      destruct (Z.eqb_spec (len l) (-1)); lia.
    + rewrite (proj2 (Z.eqb_neq _ _) N).
      destruct (Z.eqb_spec (first_colon l + 1) (-1)); [lia | done].
Qed.

Lemma no_terminator_snoc l b :
  no_terminator l -> is_terminator b = false -> no_terminator (l ++ [b]).
Proof.
  intros Hl Hb. apply Forall_app. split; [done|]. by constructor.
Qed.

Lemma byte_step_line_ok s b :
  pending_line_ok s ->
  pending_line_ok (byte_step s b).1 /\ Forall line_ok (byte_step s b).2.
Proof.
  intros [Hnt Hsep]. unfold byte_step, pending_line_ok.
  unfold ControlChars.Colon, ControlChars.CarriageReturn,
    ControlChars.NewLine in *.
  destruct (skipNewline s && (b =? 10)); [by repeat split|].
  destruct (Z.eqb_spec b 58) as [->|N58]; simpl.
  { split; [split|constructor].
    - by apply no_terminator_snoc.
    - by rewrite first_colon_snoc, Hsep. }
  destruct (Z.eqb_spec b 13) as [->|N13]; simpl.
  { split; [split; [constructor | done]|]. by repeat constructor. }
  destruct (Z.eqb_spec b 10) as [->|N10]; simpl.
  { split; [split; [constructor | done]|]. by repeat constructor. }
  split; [split|constructor].
  - apply no_terminator_snoc; [done|].
    unfold is_terminator, ControlChars.CarriageReturn, ControlChars.NewLine.
    apply orb_false_intro; by apply Z.eqb_neq.
  - rewrite first_colon_snoc, Hsep. unfold ControlChars.Colon.
    destruct (Z.eqb_spec b 58); [done|].
    by destruct (Z.eqb_spec (first_colon (pending s)) (-1)).
Qed.

Lemma byte_run_line_ok bs : forall s,
  pending_line_ok s ->
  pending_line_ok (byte_run s bs).1 /\ Forall line_ok (byte_run s bs).2.
Proof.
  induction bs as [|b bs IH]; intros s Hs; [by split|].
  destruct (byte_step_line_ok s b Hs) as [H1 Ho1]. cbn [byte_run].
  destruct (byte_step s b) as [s1 o1]. simpl in *.
  destruct (IH s1 H1) as [H2 Ho2].
  destruct (byte_run s1 bs) as [s2 o2]. simpl in *.
  split; [done|]. by apply Forall_app.
Qed.

Lemma lines_of_ok bs : Forall line_ok (lines_of bs).
Proof. apply byte_run_line_ok. split; [constructor | reflexivity]. Qed.

Lemma no_terminator_not_elem l :
  no_terminator l ->
  (ControlChars.CarriageReturn ∉ l) /\ (ControlChars.NewLine ∉ l).
Proof.
  intros Hnt. split; intros Hin;
    apply (proj1 (Forall_forall _ _) Hnt) in Hin; done.
Qed.

Lemma first_colon_zero l :
  first_colon l = 0 <-> head l = Some ControlChars.Colon.
Proof.
  destruct l as [|b l]; simpl; [done|]. pose proof (first_colon_ge l).
  destruct (Z.eqb_spec b ControlChars.Colon) as [->|Hb].
  - done.
  - split; [|intros [= ?]; done].
    destruct (Z.eqb_spec (first_colon l) (-1)); lia.
Qed.

(** The flag is on exactly after a carriage return. *)
Lemma skipNewline_after bs s :
  skipNewline (byte_run s bs).1 = true ->
  (bs = [] /\ skipNewline s = true) \/
  last bs = Some ControlChars.CarriageReturn.
Proof.
  destruct bs as [|b bs _] using rev_ind; [by left|]. intros Hskip. right.
  rewrite last_snoc. rewrite byte_run_app in Hskip.
  destruct (byte_run s bs) as [s1 o1]. simpl in Hskip.
  destruct (byte_step s1 b) as [s2 o2] eqn:Hstep. simpl in Hskip.
  unfold byte_step in Hstep.
  destruct (Z.eqb_spec b ControlChars.CarriageReturn) as [->|?]; [done|].
  repeat case_match; simplify_eq; done.
Qed.

(** After a byte other than a carriage return, a carriage return followed
    by a line feed leaves the automaton where a line feed alone does, with
    the same line yielded. *)
Lemma byte_run_crlf s :
  skipNewline s = false ->
  byte_run s [ControlChars.CarriageReturn; ControlChars.NewLine]
  = byte_run s [ControlChars.NewLine].
Proof.
  intros Hs. destruct s as [l fl d]. simpl in Hs. subst d. reflexivity.
Qed.

Lemma byte_run_cr s bs :
  skipNewline s = false -> head bs <> Some ControlChars.NewLine ->
  (byte_run s (ControlChars.CarriageReturn :: bs)).2
  = (byte_run s (ControlChars.NewLine :: bs)).2.
Proof.
  intros Hs Hbs. destruct s as [l fl d]. simpl in Hs. subst d.
  destruct bs as [|b bs]; [done|].
  assert ((b =? ControlChars.NewLine) = false) as Hb.
  { apply Z.eqb_neq. intros ->. by apply Hbs. }
  cbn [byte_run]. unfold byte_step at 1 3. simpl.
  rewrite (byte_step_no_skip [] (-1) true b) by (by rewrite Hb).
  reflexivity.
Qed.

Lemma lines_of_terminated l t rest :
  no_terminator l -> is_terminator t = true ->
  (t = ControlChars.CarriageReturn -> head rest <> Some ControlChars.NewLine) ->
  lines_of (l ++ t :: rest) = mkLine l (first_colon l) :: lines_of rest.
Proof.
  intros Hl Ht Hrest. unfold lines_of.
  destruct (scan_line_spec (l ++ t :: rest) [] [] (-1) (length (l ++ t :: rest))
              (l ++ t :: rest) eq_refl (le_n _))
    as [(fl' & Hnt & _)|(l' & t' & rest' & fl' & Heq & Hl' & Ht' & _ & Hrun)].
  { apply Forall_app in Hnt as [_ Hnt]. apply Forall_cons in Hnt as [Hnt _].
    congruence. }
  assert (l' = l /\ t' = t /\ rest' = rest) as (-> & -> & ->).
  { clear Hrun Hrest. revert l' Heq Hl'.
    induction l as [|b l IH]; intros [|b' l'] Heq Hl'; simplify_eq/=.
    - done.
    - apply Forall_cons in Hl' as [? _]. congruence.
    - apply Forall_cons in Hl as [? _]. congruence.
    - apply Forall_cons in Hl as [_ Hl]. apply Forall_cons in Hl' as [_ Hl'].
      destruct (IH Hl l' H0 Hl') as (-> & -> & ->). done. }
  unfold pending_start. rewrite Hrun. simpl.
  pose proof (lines_of_ok (l ++ t :: rest)) as Hok.
  unfold lines_of, pending_start in Hok. rewrite Hrun in Hok.
  assert ((byte_run (mkPending [] (-1) (t =? ControlChars.CarriageReturn))
             rest).2 = (byte_run (mkPending [] (-1) false) rest).2) as Hsame.
  { destruct (Z.eqb_spec t ControlChars.CarriageReturn) as [E|N]; [|done].
    destruct rest as [|b rest]; [done|]. cbn [byte_run].
    rewrite (byte_step_no_skip [] (-1) true b); [done|].
    simpl. apply Z.eqb_neq. intros ->. by apply (Hrest E). }
  destruct (byte_run (mkPending [] (-1) (t =? _)) rest) as [s1 o1].
  simpl in *. apply Forall_cons in Hok as [[_ Hfl] _]. simpl in Hfl.
  by rewrite Hfl, Hsame.
Qed.
End Lines.

(** ** The claims about [getLines] *)

Lemma getLines_line_ok (chunks : list Uint8Array) (out : list Line) (ln : Line) :
  getLines chunks = Some out -> ln ∈ out -> line_ok ln.
Proof.
  rewrite getLines_run. intros [= <-] Hin.
  by apply (proj1 (Forall_forall _ _) (lines_of_ok (all_bytes chunks))).
Qed.

(** C1. Chunking invariance: however a byte sequence is cut into chunks, one
    byte per chunk included, [getLines] returns, and yields exactly the lines
    and field lengths it yields on the sequence given as one chunk. *)
Theorem getLines_chunking_invariant (chunks : list Uint8Array) :
  exists out,
    getLines [all_bytes chunks] = Some out /\
    getLines chunks = Some out /\
    getLines (byte_chunks (all_bytes chunks)) = Some out.
Proof.
  exists (lines_of (all_bytes chunks)).
  rewrite !getLines_run, all_bytes_one_chunk, all_bytes_byte_chunks. done.
Qed.

(** C9. Every line yielded, over every chunking of every input, holds
    neither a carriage return nor a line feed, and its field length is [-1]
    when the line has no colon and the index of its first colon otherwise. *)
Theorem getLines_output_invariant
    (chunks : list Uint8Array) (out : list Line) (ln : Line) :
  getLines chunks = Some out -> ln ∈ out ->
  (ControlChars.CarriageReturn ∉ line ln) /\
  (ControlChars.NewLine ∉ line ln) /\
  ((fieldLength ln = -1 /\ ControlChars.Colon ∉ line ln) \/
   (exists l1 l2, line ln = l1 ++ ControlChars.Colon :: l2 /\
                  (ControlChars.Colon ∉ l1) /\ fieldLength ln = len l1)).
Proof.
  intros Hout Hin.
  destruct (getLines_line_ok chunks out ln Hout Hin) as [Hnt Hfl].
  apply no_terminator_not_elem in Hnt as [Hcr Hlf].
  split; [done|]. split; [done|]. rewrite Hfl.
  destruct (Z.eq_dec (first_colon (line ln)) (-1)) as [E|N].
  - left. split; [done|]. by apply first_colon_none.
  - right. by apply first_colon_split.
Qed.

Lemma getLines_output_invariant_witness :
  (ControlChars.CarriageReturn ∉ encode "data: def") /\
  (ControlChars.NewLine ∉ encode "data: def") /\
  ((4 = -1 /\ ControlChars.Colon ∉ encode "data: def") \/
   (exists l1 l2, encode "data: def" = l1 ++ ControlChars.Colon :: l2 /\
                  (ControlChars.Colon ∉ l1) /\ 4 = len l1)).
Proof.
  apply (getLines_output_invariant
           [encode "id: abc" ++ [13]; [10] ++ encode "da";
            encode "ta: def" ++ [10]]
           [mkLine (encode "id: abc") 2; mkLine (encode "data: def") 4]
           (mkLine (encode "data: def") 4)).
  - vm_compute. reflexivity.
  - apply elem_of_cons. right. apply elem_of_cons. left. reflexivity.
Defined.

(** C7. The field length of a yielded line is the offset of its first colon
    since the line start, whatever colons follow; it is [0] exactly for a line
    that starts with a colon (a comment), and [-1] for a line without colon.
    So "id: abc\n" yields 2, ": comment\n" yields 0 and "no-colon-here\n"
    yields -1. *)
Theorem getLines_field_separator :
  (forall (chunks : list Uint8Array) (out : list Line) (ln : Line),
      getLines chunks = Some out -> ln ∈ out ->
      (forall l1 l2, line ln = l1 ++ ControlChars.Colon :: l2 ->
                     ControlChars.Colon ∉ l1 -> fieldLength ln = len l1) /\
      (fieldLength ln = 0 <-> head (line ln) = Some ControlChars.Colon) /\
      (fieldLength ln = -1 <-> ControlChars.Colon ∉ line ln)) /\
  getLines [encode "id: abc" ++ [10]] = Some [mkLine (encode "id: abc") 2] /\
  getLines [encode ": comment" ++ [10]]
  = Some [mkLine (encode ": comment") 0] /\
  getLines [encode "no-colon-here" ++ [10]]
  = Some [mkLine (encode "no-colon-here") (-1)].
Proof.
  split; [|by vm_compute].
  intros chunks out ln Hout Hin.
  destruct (getLines_line_ok chunks out ln Hout Hin) as [_ ->].
  split; [|split].
  - intros l1 l2 -> Hl1. by apply first_colon_at.
  - apply first_colon_zero.
  - apply first_colon_none.
Qed.

Lemma getLines_field_separator_witness :
  (forall l1 l2, encode "id: abc: def" = l1 ++ ControlChars.Colon :: l2 ->
                 ControlChars.Colon ∉ l1 -> 2 = len l1) /\
  (2 = 0 <-> head (encode "id: abc: def") = Some ControlChars.Colon) /\
  (2 = -1 <-> ControlChars.Colon ∉ encode "id: abc: def").
Proof.
  apply (proj1 getLines_field_separator
           [encode "id: a"; encode "bc: def" ++ [10]]
           [mkLine (encode "id: abc: def") 2]
           (mkLine (encode "id: abc: def") 2)).
  - vm_compute. reflexivity.
  - apply elem_of_cons. left. reflexivity.
Defined.

Lemma skipNewline_off (P : Uint8Array) :
  last P <> Some ControlChars.CarriageReturn ->
  skipNewline (byte_run pending_start P).1 = false.
Proof.
  intros HP. destruct (skipNewline _) eqn:Hskip; [|done].
  apply skipNewline_after in Hskip as [[_ ?]|?]; done.
Qed.

Lemma lines_of_crlf (P Q : Uint8Array) :
  last P <> Some ControlChars.CarriageReturn ->
  lines_of (P ++ ControlChars.CarriageReturn :: ControlChars.NewLine :: Q)
  = lines_of (P ++ ControlChars.NewLine :: Q).
Proof.
  intros HP. apply skipNewline_off in HP. unfold lines_of.
  change (?a :: ?b :: Q) with ([a; b] ++ Q).
  change (ControlChars.NewLine :: Q) with ([ControlChars.NewLine] ++ Q).
  rewrite !(byte_run_app _ P).
  destruct (byte_run pending_start P) as [s1 o1]. simpl in HP.
  rewrite !(byte_run_app s1), (byte_run_crlf s1 HP). reflexivity.
Qed.

Lemma lines_of_cr (P Q : Uint8Array) :
  last P <> Some ControlChars.CarriageReturn ->
  head Q <> Some ControlChars.NewLine ->
  lines_of (P ++ ControlChars.CarriageReturn :: Q)
  = lines_of (P ++ ControlChars.NewLine :: Q).
Proof.
  intros HP HQ. apply skipNewline_off in HP. unfold lines_of.
  rewrite !(byte_run_app _ P).
  destruct (byte_run pending_start P) as [s1 o1]. simpl in HP.
  pose proof (byte_run_cr s1 Q HP HQ) as Hcr.
  destruct (byte_run s1 (ControlChars.CarriageReturn :: Q)).
  destruct (byte_run s1 (ControlChars.NewLine :: Q)).
  simpl in Hcr. by subst.
Qed.

(** C6. A carriage return that ends a chunk and a line feed that starts the
    next one end one line: the line is yielded at the carriage return, the
    line feed is dropped and no empty line comes of it. Anywhere in a stream,
    after a byte other than a carriage return, the terminators "\r\n" (in one
    chunk or cut in two), "\n" and "\r" (when no line feed follows it) yield
    the same lines. *)
Theorem getLines_crlf_across_chunks :
  (forall (l rest : Uint8Array), no_terminator l ->
      exists out,
        getLines [rest] = Some out /\
        getLines [l ++ [ControlChars.CarriageReturn];
                  ControlChars.NewLine :: rest]
        = Some (mkLine l (first_colon l) :: out) /\
        getLines [l ++ [ControlChars.CarriageReturn; ControlChars.NewLine]
                    ++ rest]
        = Some (mkLine l (first_colon l) :: out) /\
        getLines [l ++ [ControlChars.NewLine] ++ rest]
        = Some (mkLine l (first_colon l) :: out) /\
        (head rest <> Some ControlChars.NewLine ->
         getLines [l ++ [ControlChars.CarriageReturn] ++ rest]
         = Some (mkLine l (first_colon l) :: out))) /\
  (forall (before after : list Uint8Array) (c d : Uint8Array),
      last (all_bytes before ++ c) <> Some ControlChars.CarriageReturn ->
      getLines (before ++ [c ++ [ControlChars.CarriageReturn];
                           ControlChars.NewLine :: d] ++ after)
      = getLines (before ++ [c ++ [ControlChars.NewLine]; d] ++ after) /\
      getLines (before ++ [c ++ [ControlChars.CarriageReturn;
                                 ControlChars.NewLine] ++ d] ++ after)
      = getLines (before ++ [c ++ [ControlChars.NewLine] ++ d] ++ after) /\
      (head (d ++ all_bytes after) <> Some ControlChars.NewLine ->
       getLines (before ++ [c ++ [ControlChars.CarriageReturn] ++ d] ++ after)
       = getLines (before ++ [c ++ [ControlChars.NewLine] ++ d] ++ after))).
Proof.
  split.
  - intros l rest Hl. exists (lines_of rest).
    rewrite !getLines_run, !all_bytes_one_chunk.
    split; [done|].
    assert (lines_of (l ++ ControlChars.NewLine :: rest)
            = mkLine l (first_colon l) :: lines_of rest) as Hlf
      by (by apply lines_of_terminated).
    assert (last l <> Some ControlChars.CarriageReturn) as Hlast.
    { intros Hlast. apply last_Some in Hlast as [l' ->].
      apply Forall_app in Hl as [_ Hl]. by apply Forall_cons in Hl as [? _]. }
    split; [|split; [|split]].
    + unfold all_bytes. cbn [mjoin list_join]. rewrite app_nil_r.
      rewrite <- app_assoc. simpl. by rewrite lines_of_crlf, Hlf.
    + simpl. by rewrite lines_of_crlf, Hlf.
    + simpl. by rewrite Hlf.
    + intros Hrest. simpl. by rewrite lines_of_cr, Hlf.
  - intros before after c d Hlast.
    set (P := all_bytes before ++ c) in *.
    set (Q := d ++ all_bytes after) in *.
    assert (forall x y, all_bytes (before ++ [c ++ x; y ++ d] ++ after)
                        = P ++ (x ++ y) ++ Q) as Htwo.
    { intros x y. rewrite all_bytes_app. cbn [app].
      rewrite !all_bytes_cons. unfold P, Q. by rewrite <- !app_assoc. }
    assert (forall x, all_bytes (before ++ [c ++ x ++ d] ++ after)
                      = P ++ x ++ Q) as Hone.
    { intros x. rewrite all_bytes_app. cbn [app].
      rewrite !all_bytes_cons. unfold P, Q. by rewrite <- !app_assoc. }
    rewrite !getLines_run.
    rewrite (Htwo [ControlChars.CarriageReturn] [ControlChars.NewLine]
             : all_bytes (before ++ [c ++ [ControlChars.CarriageReturn];
                                     ControlChars.NewLine :: d] ++ after) = _).
    rewrite (Htwo [ControlChars.NewLine] []
             : all_bytes (before ++ [c ++ [ControlChars.NewLine]; d] ++ after)
               = _).
    rewrite !Hone. simpl.
    split; [|split]; [| |intros HQ]; f_equal.
    + by apply lines_of_crlf.
    + by apply lines_of_crlf.
    + by apply lines_of_cr.
Qed.

Lemma getLines_crlf_across_chunks_witness :
  (exists out,
      getLines [encode "data: def"] = Some out /\
      getLines [encode "id: abc" ++ [ControlChars.CarriageReturn];
                ControlChars.NewLine :: encode "data: def"]
      = Some (mkLine (encode "id: abc") (first_colon (encode "id: abc"))
              :: out) /\
      getLines [encode "id: abc"
                ++ [ControlChars.CarriageReturn; ControlChars.NewLine]
                ++ encode "data: def"]
      = Some (mkLine (encode "id: abc") (first_colon (encode "id: abc"))
              :: out) /\
      getLines [encode "id: abc" ++ [ControlChars.NewLine]
                ++ encode "data: def"]
      = Some (mkLine (encode "id: abc") (first_colon (encode "id: abc"))
              :: out) /\
      (head (encode "data: def") <> Some ControlChars.NewLine ->
       getLines [encode "id: abc" ++ [ControlChars.CarriageReturn]
                 ++ encode "data: def"]
       = Some (mkLine (encode "id: abc") (first_colon (encode "id: abc"))
               :: out))) /\
  (getLines ([encode "a" ++ [10]]
             ++ [encode "id: abc" ++ [ControlChars.CarriageReturn];
                 ControlChars.NewLine :: encode "x"] ++ [[10]])
   = getLines ([encode "a" ++ [10]]
               ++ [encode "id: abc" ++ [ControlChars.NewLine]; encode "x"]
               ++ [[10]]) /\
   getLines ([encode "a" ++ [10]]
             ++ [encode "id: abc"
                 ++ [ControlChars.CarriageReturn; ControlChars.NewLine]
                 ++ encode "x"] ++ [[10]])
   = getLines ([encode "a" ++ [10]]
               ++ [encode "id: abc" ++ [ControlChars.NewLine] ++ encode "x"]
               ++ [[10]]) /\
   (head (encode "x" ++ all_bytes [[10]]) <> Some ControlChars.NewLine ->
    getLines ([encode "a" ++ [10]]
              ++ [encode "id: abc" ++ [ControlChars.CarriageReturn]
                  ++ encode "x"] ++ [[10]])
    = getLines ([encode "a" ++ [10]]
                ++ [encode "id: abc" ++ [ControlChars.NewLine] ++ encode "x"]
                ++ [[10]]))).
Proof.
  destruct getLines_crlf_across_chunks as (Hstart & Hanywhere).
  split.
  - apply (Hstart (encode "id: abc") (encode "data: def")).
    vm_compute. repeat constructor.
  - apply (Hanywhere [encode "a" ++ [10]] [[10]] (encode "id: abc")
             (encode "x")).
    vm_compute. discriminate.
Defined.

(** ** Properties of the messages *)

Section Messages.
Implicit Types (message : EventSourceMessage) (ln : Line).

Lemma getMessages_from_app message (l1 l2 : list Line) :
  getMessages_from message (l1 ++ l2) =
  let '(m1, out1) := getMessages_from message l1 in
  let '(m2, out2) := getMessages_from m1 l2 in
  (m2, out1 ++ out2).
Proof.
  revert message. induction l1 as [|ln l1 IH]; intros message; simpl.
  - by destruct (getMessages_from message l2).
  - destruct (getMessages_line message ln) as [m1 o1]. rewrite IH.
    destruct (getMessages_from m1 l1) as [m2 o2].
    destruct (getMessages_from m2 l2) as [m3 o3].
    by rewrite app_assoc.
Qed.

(** An empty line yields the message in progress when it has a property,
    and leaves an empty message in progress. *)
Lemma getMessages_line_blank message ln :
  len (line ln) = 0 ->
  getMessages_line message ln
  = (∅, if decide (message = ∅) then [] else [message]).
Proof.
  intros Hlen. unfold getMessages_line. rewrite Hlen. simpl.
  by destruct (decide (message = ∅)) as [->|].
Qed.

(** A line that is not empty yields nothing, and assigns at most one
    property of the message in progress. *)
Lemma getMessages_line_nonblank message ln :
  len (line ln) <> 0 ->
  exists message',
    getMessages_line message ln = (message', []) /\
    (message' = message \/
     exists field value, message' = <[field := value]> message).
Proof.
  intros Hlen. unfold getMessages_line.
  rewrite (proj2 (Z.eqb_neq _ _) Hlen).
  repeat case_match; eauto 6.
Qed.

Lemma getMessages_line_ignored message ln :
  len (line ln) <> 0 -> fieldLength ln <= 0 ->
  getMessages_line message ln = (message, []).
Proof.
  intros Hlen Hfl. unfold getMessages_line.
  rewrite (proj2 (Z.eqb_neq _ _) Hlen).
  by replace (0 <? fieldLength ln) with false
    by (symmetry; apply Z.ltb_ge; lia).
Qed.

Lemma getMessages_from_nonblank (group : list Line) : forall message,
  Forall (fun ln => len (line ln) <> 0) group ->
  (getMessages_from message group).2 = [] /\
  (message <> ∅ -> (getMessages_from message group).1 <> ∅).
Proof.
  induction group as [|ln group IH]; intros message Hall; [done|].
  apply Forall_cons in Hall as [Hln Hall]. cbn [getMessages_from].
  destruct (getMessages_line_nonblank message ln Hln)
    as (m1 & -> & Hm1).
  destruct (IH m1 Hall) as [Hout Hne].
  destruct (getMessages_from m1 group) as [m2 o2]. simpl in *.
  split; [done|]. intros Hmsg. apply Hne.
  destruct Hm1 as [->|(field & value & ->)]; [done|].
  apply insert_non_empty.
Qed.

Lemma getMessages_line_retry message ln :
  len (line ln) <> 0 -> 0 < fieldLength ln -> field_of ln = "retry" ->
  getMessages_line message ln =
  match parseInt (value_of ln) with
  | None => (message, [])
  | Some n => (<["retry" := VNumber n]> message, [])
  end.
Proof.
  intros Hlen Hfl Hfield. unfold getMessages_line.
  rewrite (proj2 (Z.eqb_neq _ _) Hlen), (proj2 (Z.ltb_lt _ _) Hfl), Hfield.
  reflexivity.
Qed.

Lemma getMessages_line_string message ln :
  len (line ln) <> 0 -> 0 < fieldLength ln ->
  field_of ln = "data" \/ field_of ln = "event" \/ field_of ln = "id" ->
  getMessages_line message ln =
  (<[field_of ln := VString (value_of ln)]> message, []).
Proof.
  intros Hlen Hfl Hfield. unfold getMessages_line.
  rewrite (proj2 (Z.eqb_neq _ _) Hlen), (proj2 (Z.ltb_lt _ _) Hfl).
  destruct (decide (field_of ln = "retry")) as [E|_].
  { rewrite E in Hfield. by destruct Hfield as [?|[?|?]]. }
  by destruct (decide _).
Qed.

(** Whether a line assigns a property does not depend on the message. *)
Lemma getMessages_line_dichotomy ln :
  nonblank ln ->
  (forall message, getMessages_line message ln = (message, [])) \/
  sets_property ln.
Proof.
  intros Hlen. unfold sets_property, getMessages_line.
  rewrite (proj2 (Z.eqb_neq _ _) Hlen).
  destruct (0 <? fieldLength ln); [|by left].
  destruct (decide (field_of ln = "retry")).
  { destruct (parseInt (value_of ln)); [right; eauto | by left]. }
  destruct (decide _); [right; eauto | by left].
Qed.

Lemma getMessages_from_accumulates (group : list Line) : forall message,
  Forall nonblank group ->
  (getMessages_from message group).1 <> ∅ <->
  message <> ∅ \/ Exists sets_property group.
Proof.
  induction group as [|ln group IH]; intros message Hall.
  - simpl. split; [by left|]. intros [?|H]; [done | inversion H].
  - apply Forall_cons in Hall as [Hln Hall]. cbn [getMessages_from].
    destruct (getMessages_line message ln) as [m1 o1] eqn:Hstep.
    specialize (IH m1 Hall).
    destruct (getMessages_from m1 group) as [m2 o2] eqn:Hrest.
    cbn [fst] in *. rewrite IH, Exists_cons. clear IH.
    destruct (getMessages_line_dichotomy ln Hln)
      as [Hsame|(field & value & Hset)].
    + rewrite Hsame in Hstep. injection Hstep as <- <-.
      split; [tauto|]. intros [?|[(f & v & Hset)|?]]; [tauto| |tauto].
      specialize (Hset ∅). rewrite Hsame in Hset.
      apply (f_equal fst) in Hset. simpl in Hset. symmetry in Hset.
      by apply insert_non_empty in Hset.
    + rewrite Hset in Hstep. injection Hstep as <- <-.
      split; [|intros _; left; apply insert_non_empty].
      intros _. right. left. by exists field, value.
Qed.
End Messages.

(** ** The claims about [getMessages] *)

(** C4. On an empty line the message in progress is yielded exactly when a
    property of it has been assigned since the last emission, that is when a
    line of the group assigned one, and the message in progress is empty
    afterwards: a second empty line yields nothing more, and lines that are
    comments, have no separator or are empty yield no message at all. *)
Theorem getMessages_emission :
  (forall (message : EventSourceMessage) (ln : Line),
      len (line ln) = 0 ->
      (message <> ∅ -> getMessages_line message ln = (∅, [message])) /\
      (message = ∅ -> getMessages_line message ln = (∅, []))) /\
  (forall (group : list Line) (blank : Line),
      Forall nonblank group -> len (line blank) = 0 ->
      (Exists sets_property group ->
       exists message, message <> ∅ /\
         getMessages_from ∅ (group ++ [blank]) = (∅, [message])) /\
      (~ Exists sets_property group ->
       getMessages_from ∅ (group ++ [blank]) = (∅, []))) /\
  (forall (message : EventSourceMessage) (blank1 blank2 : Line),
      len (line blank1) = 0 -> len (line blank2) = 0 ->
      getMessages_from message [blank1; blank2]
      = getMessages_from message [blank1]) /\
  (forall lines : list Line,
      Forall (fun ln => len (line ln) = 0 \/ fieldLength ln <= 0) lines ->
      getMessages lines = []).
Proof.
  split; [|split; [|split]].
  - intros message ln Hlen. rewrite (getMessages_line_blank _ _ Hlen).
    split; intros H; by destruct (decide (message = ∅)).
  - intros group blank Hgroup Hblank.
    pose proof (getMessages_from_accumulates group ∅ Hgroup) as Hacc.
    pose proof (getMessages_from_nonblank group ∅ Hgroup) as [Hout _].
    rewrite getMessages_from_app. cbn [getMessages_from].
    destruct (getMessages_from ∅ group) as [acc o1]. simpl in *. subst o1.
    rewrite (getMessages_line_blank _ _ Hblank). simpl.
    split; intros Hex.
    + exists acc. assert (acc <> ∅) as Hne by (apply Hacc; by right).
      split; [done|]. by destruct (decide (acc = ∅)).
    + destruct (decide (acc = ∅)) as [|Hne]; [done|].
      destruct (proj1 Hacc Hne) as [?|?]; done.
  - intros message blank1 blank2 H1 H2. cbn [getMessages_from].
    rewrite (getMessages_line_blank _ _ H1), (getMessages_line_blank _ _ H2).
    repeat case_decide; done.
  - intros lines Hall. unfold getMessages.
    assert (getMessages_from ∅ lines = (∅, [])) as ->; [|done].
    induction lines as [|ln lines IH]; [done|].
    apply Forall_cons in Hall as [Hln Hall]. cbn [getMessages_from].
    assert (getMessages_line ∅ ln = (∅, [])) as ->.
    { destruct (Z.eq_dec (len (line ln)) 0) as [E|N].
      - by rewrite (getMessages_line_blank _ _ E).
      - destruct Hln as [?|Hfl]; [done|].
        by apply getMessages_line_ignored. }
    by rewrite (IH Hall).
Qed.

Lemma getMessages_emission_witness :
  (({[ "id" := VString "123" ]} <> (∅ : EventSourceMessage) ->
    getMessages_line {[ "id" := VString "123" ]} (mkLine [] (-1))
    = (∅, [ {[ "id" := VString "123" ]} ])) /\
   ({[ "id" := VString "123" ]} = (∅ : EventSourceMessage) ->
    getMessages_line {[ "id" := VString "123" ]} (mkLine [] (-1)) = (∅, [])))
  /\
  ((Exists sets_property [mkLine (encode "id:123") 2; mkLine (encode ":") 0] ->
    exists message, message <> ∅ /\
      getMessages_from ∅ ([mkLine (encode "id:123") 2; mkLine (encode ":") 0]
                          ++ [mkLine [] (-1)]) = (∅, [message])) /\
   (~ Exists sets_property [mkLine (encode "id:123") 2; mkLine (encode ":") 0]
    -> getMessages_from ∅ ([mkLine (encode "id:123") 2; mkLine (encode ":") 0]
                           ++ [mkLine [] (-1)]) = (∅, []))) /\
  getMessages_from {[ "id" := VString "123" ]} [mkLine [] (-1); mkLine [] 0]
  = getMessages_from {[ "id" := VString "123" ]} [mkLine [] (-1)] /\
  getMessages [mkLine (encode ": a comment") 0; mkLine [] (-1);
               mkLine (encode "no colon") (-1); mkLine [] (-1)] = [].
Proof.
  destruct getMessages_emission as (Hline & Hgroup & Honce & Hcomments).
  split; [|split; [|split]].
  - apply (Hline {[ "id" := VString "123" ]} (mkLine [] (-1))). reflexivity.
  - apply (Hgroup [mkLine (encode "id:123") 2; mkLine (encode ":") 0]
             (mkLine [] (-1))).
    + repeat constructor; vm_compute; discriminate.
    + reflexivity.
  - apply (Honce {[ "id" := VString "123" ]} (mkLine [] (-1)) (mkLine [] 0));
      reflexivity.
  - apply (Hcomments [mkLine (encode ": a comment") 0; mkLine [] (-1);
                      mkLine (encode "no colon") (-1); mkLine [] (-1)]).
    repeat apply Forall_cons_2; try apply Forall_nil_2; simpl;
      ((by left) || (right; lia)).
Defined.

(** C8. What is not terminated when the input ends is dropped: [getLines]
    yields the lines of the bytes up to the last terminator only, whatever
    follows it, and [getMessages] yields the messages of the lines up to the
    last empty line only. *)
Theorem unterminated_tail_dropped :
  (forall (chunks : list Uint8Array) (body tail : Uint8Array),
      all_bytes chunks = body ++ tail -> no_terminator tail ->
      getLines chunks = getLines [body]) /\
  (forall lines group : list Line,
      Forall nonblank group ->
      getMessages (lines ++ group) = getMessages lines) /\
  (forall chunks tail : list Uint8Array,
      no_terminator (all_bytes tail) ->
      parseStream (chunks ++ tail) = parseStream chunks).
Proof.
  assert (forall body tail, no_terminator tail ->
            lines_of (body ++ tail) = lines_of body) as Hlines.
  { intros body tail Htail. rewrite lines_of_app.
    rewrite byte_run_no_terminator by done. apply app_nil_r. }
  split; [|split].
  - intros chunks body tail Hbytes Htail.
    rewrite !getLines_run, Hbytes, all_bytes_one_chunk. f_equal.
    by apply Hlines.
  - intros lines group Hgroup. unfold getMessages.
    rewrite getMessages_from_app.
    destruct (getMessages_from ∅ lines) as [m1 o1].
    pose proof (getMessages_from_nonblank group m1 Hgroup) as [Hout _].
    destruct (getMessages_from m1 group) as [m2 o2]. simpl in *. subst o2.
    apply app_nil_r.
  - intros chunks tail Htail. unfold parseStream.
    rewrite !getLines_run, all_bytes_app. by rewrite Hlines.
Qed.

Lemma unterminated_tail_dropped_witness :
  getLines [encode "id: abc" ++ [10] ++ encode "da"; encode "ta: de"]
  = getLines [encode "id: abc" ++ [10]] /\
  getMessages ([mkLine (encode "id: 1") 2; mkLine [] (-1)]
               ++ [mkLine (encode "data: x") 4])
  = getMessages [mkLine (encode "id: 1") 2; mkLine [] (-1)] /\
  parseStream ([encode "id: 1" ++ [10; 10]] ++ [encode "data: x"])
  = parseStream [encode "id: 1" ++ [10; 10]].
Proof.
  destruct unterminated_tail_dropped as (Hlines & Hmessages & Hstream).
  split; [|split].
  - apply (Hlines [encode "id: abc" ++ [10] ++ encode "da"; encode "ta: de"]
             (encode "id: abc" ++ [10]) (encode "data: de")).
    + reflexivity.
    + vm_compute. repeat constructor.
  - apply (Hmessages [mkLine (encode "id: 1") 2; mkLine [] (-1)]
             [mkLine (encode "data: x") 4]).
    repeat constructor. vm_compute. discriminate.
  - apply (Hstream [encode "id: 1" ++ [10; 10]] [encode "data: x"]).
    vm_compute. repeat constructor.
Defined.

(** ** [parseInt] *)

Section ParseInt.
Implicit Types (ws sign ds rest l : list Z).

Ltac bool_cases :=
  repeat match goal with
    | |- context [?a =? ?b] => destruct (Z.eqb_spec a b); try lia
    | |- context [?a <=? ?b] => destruct (Z.leb_spec a b); try lia
    end.

Lemma trim_start_white_space ws l :
  Forall (fun b => white_space1 b = true) ws ->
  trim_start (ws ++ l) = trim_start l.
Proof.
  intros Hws. induction Hws as [|b sp Hb Hsp IH]; [done|]. simpl.
  by rewrite Hb.
Qed.

Lemma trim_start_keeps b l : 43 <= b <= 57 -> trim_start (b :: l) = b :: l.
Proof.
  intros Hb. simpl.
  assert (white_space1 b = false) as -> by (unfold white_space1; bool_cases; done).
  destruct l as [|b1 l]; [done|].
  assert (white_space2 b b1 = false) as -> by (unfold white_space2; bool_cases; done).
  destruct l as [|b2 l]; [done|].
  assert (white_space3 b b1 b2 = false) as ->; [|done].
  unfold white_space3.
  destruct (Z.eqb_spec b 225); [lia|]. destruct (Z.eqb_spec b 226); [lia|].
  destruct (Z.eqb_spec b 227); [lia|]. destruct (Z.eqb_spec b 239); [lia|].
  reflexivity.
Qed.

Lemma is_digit_range b : is_digit b = true <-> 48 <= b <= 57.
Proof. unfold is_digit. rewrite andb_true_iff, !Z.leb_le. done. Qed.

(** What follows the digits does not count. *)
Lemma digits_value_app ds rest : forall acc,
  Forall (fun b => is_digit b = true) ds ->
  (forall b, head rest = Some b -> is_digit b = false) ->
  digits_value acc (ds ++ rest) = digits_value acc ds.
Proof.
  induction ds as [|d ds IH]; intros acc Hds Hrest.
  - destruct rest as [|b rest]; [done|]. simpl.
    by rewrite (Hrest b eq_refl).
  - apply Forall_cons in Hds as [Hd Hds]. simpl. rewrite Hd. by apply IH.
Qed.

Lemma parseInt_codes_prefix ws sign ds rest :
  Forall (fun b => white_space1 b = true) ws ->
  sign = [] \/ sign = [43] \/ sign = [45] ->
  ds <> [] -> Forall (fun b => is_digit b = true) ds ->
  (forall b, head rest = Some b -> is_digit b = false) ->
  parseInt_codes (ws ++ sign ++ ds ++ rest)
  = Some (number_of (sign_value sign) (digits_value 0 ds)).
Proof.
  intros Hws Hsign Hne Hds Hrest. unfold parseInt_codes.
  rewrite (trim_start_white_space _ _ Hws).
  destruct ds as [|d ds]; [done|].
  pose proof (digits_value_app (d :: ds) rest 0 Hds Hrest) as Hval.
  apply Forall_cons in Hds as [Hd Hds].
  pose proof (proj1 (is_digit_range d) Hd) as Hrange.
  destruct Hsign as [-> | [-> | ->]]; cbn [app sign_value].
  - rewrite trim_start_keeps by lia.
    destruct (Z.eqb_spec d 45); [lia|]. destruct (Z.eqb_spec d 43); [lia|].
    by rewrite Hd, <- Hval.
  - rewrite trim_start_keeps by lia. simpl (43 =? 45). simpl (43 =? 43).
    cbv iota. by rewrite Hd, <- Hval.
  - rewrite trim_start_keeps by lia. simpl (45 =? 45).
    cbv iota. by rewrite Hd, <- Hval.
Qed.



End ParseInt.



(** C10. [retry] is lenient: a value that only begins with an integer, that
    is white space, a sign or none, and digits, followed by anything that is
    not a digit, sets [retry] to the number that [parseInt] makes of that
    integer, which is the integer itself up to 2^53; so "42abc" sets [retry]
    to 42. A value is ignored only when [parseInt] finds no integer at its
    start. *)
Theorem retry_leniency :
  (forall (message : EventSourceMessage) (ln : Line) (ws sign ds rest : list Z),
      nonblank ln -> 0 < fieldLength ln -> field_of ln = "retry" ->
      encode (value_of ln) = ws ++ sign ++ ds ++ rest ->
      Forall (fun b => white_space1 b = true) ws ->
      sign = [] \/ sign = [43] \/ sign = [45] ->
      ds <> [] -> Forall (fun b => is_digit b = true) ds ->
      (forall b, head rest = Some b -> is_digit b = false) ->
      parseInt_codes (ws ++ sign ++ ds)
      = Some (number_of (sign_value sign) (digits_value 0 ds)) /\
      getMessages_line message ln
      = (<["retry" := VNumber (number_of (sign_value sign)
                                 (digits_value 0 ds))]> message, []) /\
      (0 < digits_value 0 ds <= max_exact ->
       getMessages_line message ln
       = (<["retry" := VNumber (Integer (sign_value sign
                                         * digits_value 0 ds))]> message,
          []))) /\
  (forall (message : EventSourceMessage) (ln : Line),
      nonblank ln -> 0 < fieldLength ln -> field_of ln = "retry" ->
      getMessages_line message ln = (message, []) ->
      message !! "retry" = None ->
      parseInt (value_of ln) = None) /\
  parseInt "42abc" = Some (Integer 42) /\
  parseInt "abc" = None /\
  parseInt "-0" = Some NegativeZero /\
  parseInt "9007199254740993" = Some (Rounded 9007199254740993) /\
  parseStream [encode "retry: 42abc" ++ [10; 10]]
  = Some [ {[ "retry" := VNumber (Integer 42) ]} ].
Proof.
  split; [|split; [|by vm_compute]].
  - intros message ln ws sign ds rest Hlen Hfl Hfield Hvalue Hws Hsign Hne
      Hds Hrest.
    assert (getMessages_line message ln
            = (<["retry" := VNumber (number_of (sign_value sign)
                                       (digits_value 0 ds))]> message, []))
      as Hline.
    { rewrite (getMessages_line_retry _ _ Hlen Hfl Hfield).
      unfold parseInt. rewrite Hvalue.
      by rewrite parseInt_codes_prefix. }
    split; [|split; [exact Hline|]].
    + replace (ws ++ sign ++ ds) with (ws ++ sign ++ ds ++ [])
        by (by rewrite app_nil_r).
      by apply parseInt_codes_prefix.
    + intros [Hpos Hmax]. rewrite Hline. unfold number_of.
      destruct (Z.eqb_spec (digits_value 0 ds) 0); [lia|].
      destruct (Z.leb_spec (digits_value 0 ds) max_exact); [done | lia].
  - intros message ln Hlen Hfl Hfield Hline Hnone.
    rewrite (getMessages_line_retry _ _ Hlen Hfl Hfield) in Hline.
    destruct (parseInt (value_of ln)) as [n|]; [|done].
    apply (f_equal fst) in Hline. simpl in Hline.
    rewrite <- Hline, lookup_insert_eq in Hnone. done.
Qed.

Lemma retry_leniency_witness :
  (parseInt_codes ([] ++ [] ++ [52; 50]) = Some (Integer 42) /\
   getMessages_line ∅ (mkLine (encode "retry: 42abc") 5)
   = (<["retry" := VNumber (Integer 42)]> ∅, []) /\
   (0 < 42 <= max_exact ->
    getMessages_line ∅ (mkLine (encode "retry: 42abc") 5)
    = (<["retry" := VNumber (Integer 42)]> ∅, [])))
  /\
  parseInt (value_of (mkLine (encode "retry: def") 5)) = None.
Proof.
  destruct retry_leniency as (Hprefix & Hignored & _).
  split.
  - apply (Hprefix ∅ (mkLine (encode "retry: 42abc") 5)
             [] [] [52; 50] (encode "abc")).
    + vm_compute. discriminate.
    + reflexivity.
    + vm_compute. reflexivity.
    + vm_compute. reflexivity.
    + constructor.
    + left. reflexivity.
    + discriminate.
    + repeat constructor.
    + intros b [= <-]. reflexivity.
  - apply (Hignored ∅ (mkLine (encode "retry: def") 5)).
    + vm_compute. discriminate.
    + reflexivity.
    + vm_compute. reflexivity.
    + vm_compute. reflexivity.
    + reflexivity.
Defined.

(** ** [data] and [id] lines *)

(** C2, as the code has it. A [data] line with a separator sets the data of
    a message that has none yet to its decoded value, with no line feed in
    front; a line without colon, as the bare "data", is yielded by [getLines]
    with field length [-1] and changes nothing; and
    "data:YHOO\ndata: +2\ndata\ndata: 10\n\n" yields one message, which has
    data. *)
Theorem data_field :
  (forall (message : EventSourceMessage) (ln : Line),
      nonblank ln -> 0 < fieldLength ln -> field_of ln = "data" ->
      message !! "data" = None ->
      getMessages_line message ln
      = (<["data" := VString (value_of ln)]> message, [])) /\
  (forall (chunks : list Uint8Array) (out : list Line) (ln : Line)
          (message : EventSourceMessage),
      getLines chunks = Some out -> ln ∈ out -> nonblank ln ->
      ControlChars.Colon ∉ line ln ->
      fieldLength ln = -1 /\ getMessages_line message ln = (message, [])) /\
  getLines [encode "data:YHOO" ++ [10] ++ encode "data: +2" ++ [10]
            ++ encode "data" ++ [10] ++ encode "data: 10" ++ [10; 10]]
  = Some [mkLine (encode "data:YHOO") 4; mkLine (encode "data: +2") 4;
          mkLine (encode "data") (-1); mkLine (encode "data: 10") 4;
          mkLine [] (-1)] /\
  (exists message value,
      parseStream [encode "data:YHOO" ++ [10] ++ encode "data: +2" ++ [10]
                   ++ encode "data" ++ [10] ++ encode "data: 10" ++ [10; 10]]
      = Some [message] /\
      message !! "data" = Some (VString value)).
Proof.
  split; [|split; [|split]].
  - intros message ln Hlen Hfl Hfield _.
    rewrite getMessages_line_string by auto. by rewrite Hfield.
  - intros chunks out ln message Hout Hin Hlen Hcolon.
    destruct (getLines_line_ok chunks out ln Hout Hin) as [_ Hfl].
    apply first_colon_none in Hcolon. rewrite <- Hfl in Hcolon.
    split; [done|]. apply getMessages_line_ignored; [done | lia].
  - by vm_compute.
  - exists {[ "data" := VString "10" ]}, "10"%string. by vm_compute.
Qed.

Lemma data_field_witness :
  getMessages_line {[ "id" := VString "1" ]} (mkLine (encode "data: +2") 4)
  = (<["data" := VString (value_of (mkLine (encode "data: +2") 4))]>
       {[ "id" := VString "1" ]}, []) /\
  (fieldLength (mkLine (encode "data") (-1)) = -1 /\
   getMessages_line {[ "data" := VString "+2" ]} (mkLine (encode "data") (-1))
   = ({[ "data" := VString "+2" ]}, [])).
Proof.
  destruct data_field as (Hfirst & Hbare & _).
  split.
  - apply (Hfirst {[ "id" := VString "1" ]} (mkLine (encode "data: +2") 4)).
    + vm_compute. discriminate.
    + reflexivity.
    + vm_compute. reflexivity.
    + vm_compute. reflexivity.
  - apply (Hbare [encode "data: +2" ++ [10] ++ encode "data" ++ [10]]
             [mkLine (encode "data: +2") 4; mkLine (encode "data") (-1)]).
    + vm_compute. reflexivity.
    + apply elem_of_cons. right. apply elem_of_cons. left. reflexivity.
    + vm_compute. discriminate.
    + vm_compute. intros Hin.
      repeat (apply elem_of_cons in Hin as [Hin|Hin]; [discriminate|]).
      by apply not_elem_of_nil in Hin.
Defined.

(** C2 as the specification states it fails on its own example: the message
    yielded has the data "10", the value of the last [data] line, and a
    second [data] line replaces the data of the first. *)
Lemma data_accumulation_counterexample :
  ~ (exists message,
        parseStream [encode "data:YHOO" ++ [10] ++ encode "data: +2" ++ [10]
                     ++ encode "data" ++ [10] ++ encode "data: 10"
                     ++ [10; 10]]
        = Some [message] /\
        message !! "data"
        = Some (VString ("YHOO" ++ LF ++ "+2" ++ LF ++ LF ++ "10"))) /\
  getMessages_line {[ "data" := VString "YHOO" ]}
    (mkLine (encode "data: +2") 4)
  = ({[ "data" := VString "+2" ]}, []).
Proof.
  split; [|by vm_compute].
  intros (message & Hparse & Hdata).
  vm_compute in Hparse. injection Hparse as <-.
  vm_compute in Hdata. discriminate.
Qed.

(** C3, as the code has it. An [id] line with a separator and an empty value
    sets the id of the message to the empty string, whatever it was, and the
    property is then present; the bare "id", a line without colon, changes
    nothing. So "id: foo\nid\n\n" yields the id "foo", and
    "id: foo\nid:\n\n" the empty id. *)
Theorem id_field :
  (forall (message : EventSourceMessage) (ln : Line),
      nonblank ln -> 0 < fieldLength ln -> field_of ln = "id" ->
      value_of ln = ""%string ->
      getMessages_line message ln = (<["id" := VString ""]> message, []) /\
      (<["id" := VString ""]> message) !! "id" = Some (VString "")) /\
  (forall message : EventSourceMessage,
      getMessages_line message (mkLine (encode "id") (-1)) = (message, [])) /\
  getLines [encode "id: foo" ++ [10] ++ encode "id" ++ [10; 10]]
  = Some [mkLine (encode "id: foo") 2; mkLine (encode "id") (-1);
          mkLine [] (-1)] /\
  parseStream [encode "id: foo" ++ [10] ++ encode "id" ++ [10; 10]]
  = Some [ {[ "id" := VString "foo" ]} ] /\
  parseStream [encode "id: foo" ++ [10] ++ encode "id:" ++ [10; 10]]
  = Some [ {[ "id" := VString "" ]} ].
Proof.
  split; [|split; [|by vm_compute]].
  - intros message ln Hlen Hfl Hfield Hvalue.
    rewrite getMessages_line_string by auto. rewrite Hfield, Hvalue.
    split; [done|]. apply lookup_insert_eq.
  - intros message. by apply getMessages_line_ignored.
Qed.

Lemma id_field_witness :
  getMessages_line {[ "id" := VString "foo" ]} (mkLine (encode "id:") 2)
  = (<["id" := VString ""]> {[ "id" := VString "foo" ]}, []) /\
  (<["id" := VString ""]> ({[ "id" := VString "foo" ]} : EventSourceMessage))
    !! "id" = Some (VString "").
Proof.
  apply (proj1 id_field {[ "id" := VString "foo" ]}
           (mkLine (encode "id:") 2)).
  - vm_compute. discriminate.
  - reflexivity.
  - vm_compute. reflexivity.
  - vm_compute. reflexivity.
Defined.

(** C3 as the specification states it fails on its own example: the bare
    "id" does not reset the id, the message yielded has the id "foo". *)
Lemma id_reset_counterexample :
  ~ (exists message,
        parseStream [encode "id: foo" ++ [10] ++ encode "id" ++ [10; 10]]
        = Some [message] /\
        message !! "id" = Some (VString "")).
Proof.
  intros (message & Hparse & Hid).
  vm_compute in Hparse. injection Hparse as <-.
  vm_compute in Hid. discriminate.
Qed.

(** ** The tests of the repository *)

Example test_multiple_lines_split_across_arrays :
  getLines [encode "id: abc" ++ [10]; encode "da"; encode "ta: def" ++ [10]]
  = Some [mkLine (encode "id: abc") 2; mkLine (encode "data: def") 4].
Proof. by vm_compute. Qed.

Example test_new_line : getLines [[10]] = Some [mkLine [] (-1)].
Proof. by vm_compute. Qed.

Example test_lines_separated_by_cr_lf :
  getLines [encode "id: abc" ++ [13; 10] ++ encode "data: def" ++ [13; 10]]
  = Some [mkLine (encode "id: abc") 2; mkLine (encode "data: def") 4].
Proof. by vm_compute. Qed.

Example test_happy_path :
  getMessages [mkLine (encode "retry: 42") 5; mkLine (encode "id: abc") 2;
               mkLine (encode "event:def") 5; mkLine (encode "data:ghi") 4;
               mkLine [] (-1)]
  = [ <["retry" := VNumber (Integer 42)]> (<["id" := VString "abc"]>
        (<["event" := VString "def"]> {[ "data" := VString "ghi" ]})) ].
Proof. by vm_compute. Qed.

Example test_skip_unknown_fields :
  getMessages [mkLine (encode "id: abc") 2; mkLine (encode "foo: null") 3;
               mkLine [] (-1)]
  = [ {[ "id" := VString "abc" ]} ].
Proof. by vm_compute. Qed.

Example test_ignore_non_integer_retry :
  getMessages [mkLine (encode "id: abc") 2; mkLine (encode "retry: def") 5;
               mkLine [] (-1)]
  = [ {[ "id" := VString "abc" ]} ].
Proof. by vm_compute. Qed.

Example test_skip_comment_only_messages :
  parseStream [encode "id:123" ++ [10; 10]; encode ":" ++ [10];
               encode ":" ++ [13; 10]; encode "event: foo " ++ [10; 10]]
  = Some [ {[ "id" := VString "123" ]}; {[ "event" := VString "foo " ]} ].
Proof. by vm_compute. Qed.

(** ** Further properties of [concat] and [getLines] *)

Lemma len_replicate (n : Z) (x : Z) : 0 <= n -> len (replicate (Z.to_nat n) x) = n.
Proof. intros Hn. unfold len. rewrite length_replicate. lia. Qed.

(** X1. [concat] never throws: both [set] calls fit the array it allocates,
    and the array returned holds the bytes of [a] followed by those of [b],
    so its length is the sum of the lengths and its byte at [i] is that of
    [a] below [a.length] and that of [b] at [i - a.length] from there on. *)
Theorem concat_set_correct (a b : Uint8Array) :
  concat_set a b = Some (concat a b) /\
  len (concat a b) = len a + len b /\
  forall i, byte_at (concat a b) i
            = if i <? len a then byte_at a i else byte_at b (i - len a).
Proof.
  pose proof (len_nonneg a) as Ha. pose proof (len_nonneg b) as Hb.
  split; [|split].
  - unfold concat_set, array_set, Uint8Array_new, concat.
    rewrite len_replicate by lia. rewrite Z.add_0_l.
    replace (len a + len b <? len a) with false
      by (symmetry; apply Z.ltb_ge; lia).
    simpl. rewrite len_app, drop_replicate.
    replace (Z.to_nat (len a + len b) - Z.to_nat (len a))%nat
      with (Z.to_nat (len b)) by lia.
    rewrite len_replicate by lia.
    replace (len a <? 0) with false by (symmetry; apply Z.ltb_ge; lia).
    rewrite Z.ltb_irrefl. simpl. f_equal.
    replace (Z.to_nat (len a)) with (length a) by (unfold len; lia).
    rewrite take_app_length, drop_ge; [by rewrite app_nil_r|].
    rewrite length_app, length_replicate. unfold len. lia.
  - apply len_app.
  - intros i. unfold byte_at, concat.
    destruct (Z.ltb_spec i 0) as [Hi|Hi].
    + by replace (i <? len a) with true by (symmetry; apply Z.ltb_lt; lia).
    + destruct (Z.ltb_spec i (len a)) as [Hlt|Hge].
      * apply lookup_app_l. unfold len in Hlt. lia.
      * replace (i - len a <? 0) with false
          by (symmetry; apply Z.ltb_ge; lia).
        assert (length a <= Z.to_nat i)%nat as Hnat by (unfold len in Hge; lia).
        etrans; [exact (lookup_app_r a b _ Hnat)|]. f_equal. unfold len. lia.
Qed.

(** *** What [getLines] keeps between two chunks *)

Lemma getLines_from_reached (chunks : list Uint8Array) (st : LinesState)
    (out : list Line) :
  getLines_from initial_state chunks = Some (st, out) ->
  state_ok st /\ pending_ok (pending_of st) /\
  pending_of st = (byte_run pending_start (all_bytes chunks)).1 /\
  out = lines_of (all_bytes chunks).
Proof.
  intros Hrun.
  destruct (getLines_from_spec chunks initial_state)
    as (st' & Hrun' & Hpending & Hok); [done | by split |].
  rewrite Hrun in Hrun'. injection Hrun' as -> ->.
  split; [done|]. split; [|by split].
  rewrite Hpending. apply byte_run_ok. by split.
Qed.

Lemma getLines_chunk_buffer_nonempty (st st' : LinesState) (arr : Uint8Array)
    (out : list Line) :
  state_ok st -> pending_ok (pending_of st) ->
  getLines_chunk st arr = Some (st', out) -> buffer_nonempty st'.
Proof.
  intros Hst [Hd _] Hchunk. unfold getLines_chunk in Hchunk.
  assert (exists cur fl,
    match buffer st with
    | Some old => (concat old arr, position st, curFieldLength st)
    | None => (arr, 0, -1)
    end = (cur ++ arr, len cur, fl) /\
    (discardTrailingNewline st = true -> cur = []))
    as (cur & fl & Hbuf & Hcur).
  { unfold pending_of, state_ok in *. destruct (buffer st) as [old|].
    - exists old, (curFieldLength st). by rewrite Hst.
    - by exists [], (-1). }
  rewrite Hbuf in Hchunk.
  destruct (read_lines_spec (length (cur ++ arr)) arr [] cur fl
              (discardTrailingNewline st) (cur ++ arr) eq_refl
              ltac:(rewrite length_app; lia) Hcur)
    as (pre' & cur' & fl' & d' & out' & Hread & HB & _).
  rewrite len_nil, Z.add_0_l in Hread. rewrite Hread in Hchunk.
  injection Hchunk as <- _. rewrite HB, len_app.
  pose proof (len_nonneg pre'). pose proof (len_nonneg cur').
  unfold buffer_nonempty.
  destruct (Z.eqb_spec (len pre') (len pre' + len cur')) as [E|N]; [done|].
  assert (cur' <> []) as Hne by (intros ->; rewrite len_nil in N; lia).
  destruct (Z.eqb_spec (len pre') 0) as [E0|N0]; simpl.
  - apply len_zero in E0. by subst pre'.
  - by rewrite subarray_from_suffix.
Qed.

Lemma getLines_from_buffer_nonempty (chunks : list Uint8Array) :
  forall (st st' : LinesState) (out : list Line),
  state_ok st -> pending_ok (pending_of st) -> buffer_nonempty st ->
  getLines_from st chunks = Some (st', out) -> buffer_nonempty st'.
Proof.
  induction chunks as [|arr chunks IH]; intros st st' out Hst Hok Hne Hrun.
  - by injection Hrun as <- _.
  - cbn [getLines_from] in Hrun.
    destruct (getLines_chunk_spec st arr Hst Hok) as (st1 & Hchunk & Hp1 & Hst1).
    pose proof (getLines_chunk_buffer_nonempty st st1 arr _ Hst Hok Hchunk).
    rewrite Hchunk in Hrun.
    destruct (getLines_from st1 chunks) as [[st2 out2]|] eqn:Hrest; [|done].
    injection Hrun as <- _.
    apply (IH st1 st2 out2); try done.
    rewrite Hp1. by apply byte_run_ok.
Qed.

Lemma byte_run_pending_no_terminator (bs : Uint8Array) : forall s,
  no_terminator bs -> pending (byte_run s bs).1 = pending s ++ bs.
Proof.
  induction bs as [|b bs IH]; intros s Hnt; [by rewrite app_nil_r|].
  apply Forall_cons in Hnt as [Hb Hnt]. cbn [byte_run].
  assert (pending (byte_step s b).1 = pending s ++ [b]) as Hstep.
  { unfold byte_step, is_terminator in *.
    apply orb_false_elim in Hb as [-> ->]. rewrite andb_false_r.
    by destruct (b =? ControlChars.Colon). }
  specialize (IH (byte_step s b).1 Hnt).
  destruct (byte_step s b) as [s1 o1]. simpl in *.
  destruct (byte_run s1 bs) as [s2 o2]. simpl in *.
  by rewrite IH, Hstep, <- app_assoc.
Qed.

Lemma byte_step_pending_terminator (s : Pending) (t : Z) :
  pending_ok s -> is_terminator t = true -> pending (byte_step s t).1 = [].
Proof.
  intros [Hd _] Ht. unfold byte_step, is_terminator in *.
  unfold ControlChars.Colon, ControlChars.CarriageReturn,
    ControlChars.NewLine in *.
  destruct (skipNewline s) eqn:Hskip; simpl.
  - destruct (Z.eqb_spec t 10); simpl; [by apply Hd|].
    destruct (Z.eqb_spec t 58); [subst; done|].
    destruct (Z.eqb_spec t 13); [done|]. simpl in Ht. done.
  - destruct (Z.eqb_spec t 58); [subst; done|].
    destruct (Z.eqb_spec t 13); [done|].
    destruct (Z.eqb_spec t 10); [done|]. simpl in Ht. done.
Qed.

Lemma pending_after_terminated (body tail : Uint8Array) :
  body = [] \/ (exists body' t, body = body' ++ [t] /\ is_terminator t = true) ->
  no_terminator tail ->
  pending (byte_run pending_start (body ++ tail)).1 = tail.
Proof.
  intros Hbody Htail. rewrite byte_run_app.
  destruct (byte_run pending_start body) as [s1 o1] eqn:Hrun1.
  pose proof (byte_run_pending_no_terminator tail s1 Htail) as Hp.
  destruct (byte_run s1 tail) as [s2 o2]. simpl in *. rewrite Hp.
  assert (pending s1 = []) as ->; [|done].
  destruct Hbody as [->|(body' & t & -> & Ht)].
  - by injection Hrun1 as <- _.
  - rewrite byte_run_app in Hrun1.
    pose proof (byte_run_ok pending_start body') as Hok.
    destruct (byte_run pending_start body') as [s0 o0]. simpl in *.
    pose proof (byte_step_pending_terminator s0 t (Hok ltac:(by split)) Ht).
    destruct (byte_step s0 t) as [s1' o1']. simpl in *.
    by injection Hrun1 as <- _.
Qed.

(** X2. Between two chunks [getLines] keeps exactly the bytes that follow
    the last terminator delivered so far: [buffer] is undefined when there are
    none, and otherwise holds them and nothing of the lines already yielded,
    with [position] at its end and the carriage-return flag off. *)
Theorem getLines_keeps_unterminated_tail
    (chunks : list Uint8Array) (body tail : Uint8Array)
    (st : LinesState) (out : list Line) :
  getLines_from initial_state chunks = Some (st, out) ->
  all_bytes chunks = body ++ tail ->
  body = [] \/ (exists body' t, body = body' ++ [t] /\ is_terminator t = true) ->
  no_terminator tail ->
  (tail = [] -> buffer st = None) /\
  (tail <> [] ->
   buffer st = Some tail /\ position st = len tail /\
   discardTrailingNewline st = false).
Proof.
  intros Hrun Hbytes Hbody Htail.
  pose proof (getLines_from_buffer_nonempty chunks initial_state st out
                I ltac:(by split) I Hrun) as Hne.
  destruct (getLines_from_reached chunks st out Hrun)
    as (Hst & [Hd _] & Hpending & _).
  rewrite Hbytes in Hpending.
  apply (f_equal pending) in Hpending.
  rewrite (pending_after_terminated body tail Hbody Htail) in Hpending.
  unfold pending_of, state_ok, buffer_nonempty in *.
  destruct (buffer st) as [old|]; simpl in *; subst tail.
  - split; [done|]. intros _. split; [done|]. split; [done|].
    destruct (discardTrailingNewline st); [|done]. by specialize (Hd eq_refl).
  - split; [done|]. done.
Qed.

Lemma getLines_keeps_unterminated_tail_witness :
  (encode "da" = [] ->
   buffer (mkLinesState (Some (encode "da")) 2 (-1) false) = None) /\
  (encode "da" <> [] ->
   buffer (mkLinesState (Some (encode "da")) 2 (-1) false)
   = Some (encode "da") /\
   position (mkLinesState (Some (encode "da")) 2 (-1) false)
   = len (encode "da") /\
   discardTrailingNewline (mkLinesState (Some (encode "da")) 2 (-1) false)
   = false).
Proof.
  apply (getLines_keeps_unterminated_tail
           [encode "id: a"; encode "bc" ++ [13]; [10] ++ encode "da"]
           (encode "id: abc" ++ [13; 10]) (encode "da")
           (mkLinesState (Some (encode "da")) 2 (-1) false)
           [mkLine (encode "id: abc") 2]).
  - vm_compute. reflexivity.
  - vm_compute. reflexivity.
  - right. exists (encode "id: abc" ++ [13]), 10. split; reflexivity.
  - vm_compute. repeat constructor.
Defined.

(** *** Reading back lines written on the wire *)

Lemma no_terminator_last (l : Uint8Array) :
  no_terminator l -> last l <> Some ControlChars.CarriageReturn.
Proof.
  intros Hl Hlast. apply last_Some in Hlast as [l' ->].
  apply Forall_app in Hl as [_ Hl]. by apply Forall_cons in Hl as [? _].
Qed.

Lemma head_app_no_newline (W tail : Uint8Array) :
  head W <> Some ControlChars.NewLine -> no_terminator tail ->
  head (W ++ tail) <> Some ControlChars.NewLine.
Proof.
  intros HW Htail. destruct W as [|b W]; [|done]. simpl.
  destruct tail as [|b tail]; [done|].
  apply Forall_cons in Htail as [Hb _]. simpl. intros [= ->]. done.
Qed.

Lemma lines_of_wire_lines (ls : list (Uint8Array * Terminator))
    (tail : Uint8Array) :
  wire_ok ls -> no_terminator tail ->
  lines_of (wire_lines ls ++ tail)
  = (fun lt => mkLine lt.1 (first_colon lt.1)) <$> ls.
Proof.
  intros Hls Htail. induction ls as [|[l t] ls IH].
  - apply byte_run_no_terminator. exact Htail.
  - destruct Hls as (Hl & Hcr & Hls). specialize (IH Hls).
    cbn [wire_lines fmap list_fmap fst]. rewrite <- IH.
    rewrite <- !app_assoc.
    destruct t; cbn [terminator_bytes app].
    + by apply lines_of_terminated.
    + apply lines_of_terminated; [done | done |].
      intros _. apply head_app_no_newline; [by apply Hcr | done].
    + rewrite lines_of_crlf by (by apply no_terminator_last).
      by apply lines_of_terminated.
Qed.

(** X3. Reading back what was written: when lines without terminator bytes
    are written one after the other, each ended by "\n", "\r" or "\r\n" (a
    lone "\r" not being followed by a line that starts with "\n"), then
    [getLines] yields exactly these lines, in order, each with the offset of
    its first colon, however the bytes are cut into chunks and whatever
    unterminated bytes follow the last line. *)
Theorem getLines_reads_back
    (ls : list (Uint8Array * Terminator)) (tail : Uint8Array)
    (chunks : list Uint8Array) :
  wire_ok ls -> no_terminator tail ->
  all_bytes chunks = wire_lines ls ++ tail ->
  getLines chunks = Some ((fun lt => mkLine lt.1 (first_colon lt.1)) <$> ls).
Proof.
  intros Hls Htail Hbytes.
  rewrite getLines_run, Hbytes. f_equal. by apply lines_of_wire_lines.
Qed.

Lemma getLines_reads_back_witness :
  getLines [encode "id: 1" ++ [13]; [10] ++ encode ":c" ++ [13];
            encode "data: x" ++ [10] ++ encode "ev"]
  = Some ((fun lt => mkLine lt.1 (first_colon lt.1))
            <$> [(encode "id: 1", EndCRLF); (encode ":c", EndCR);
                 (encode "data: x", EndLF)]).
Proof.
  apply (getLines_reads_back
           [(encode "id: 1", EndCRLF); (encode ":c", EndCR);
            (encode "data: x", EndLF)]
           (encode "ev")).
  - vm_compute. repeat split; try discriminate; repeat constructor.
  - vm_compute. repeat constructor.
  - vm_compute. reflexivity.
Defined.

(** X4. The whole pipeline [parseStream] returns on every input and does not
    depend on the chunking: the messages of a chunk list are those of its
    bytes delivered as one chunk, and those of its bytes delivered one by
    one. *)
Theorem parseStream_chunking_invariant (chunks : list Uint8Array) :
  exists messages,
    parseStream chunks = Some messages /\
    parseStream [all_bytes chunks] = Some messages /\
    parseStream (byte_chunks (all_bytes chunks)) = Some messages.
Proof.
  exists (getMessages (lines_of (all_bytes chunks))). unfold parseStream.
  rewrite !getLines_run, all_bytes_one_chunk, all_bytes_byte_chunks. done.
Qed.

(** ** Further properties of [getMessages] *)

(** What a line that is not empty does, whatever the message: nothing, or the
    assignment of the property named by its field, a number for [retry] and a
    string for [data], [event] and [id]. *)
Lemma getMessages_line_shape (ln : Line) :
  nonblank ln ->
  (forall message : EventSourceMessage,
      getMessages_line message ln = (message, [])) \/
  (exists value,
      (forall message : EventSourceMessage,
          getMessages_line message ln
          = (<[field_of ln := value]> message, [])) /\
      ((field_of ln = "retry"%string /\ exists n, value = VNumber n) \/
       ((field_of ln = "data"%string \/ field_of ln = "event"%string \/
         field_of ln = "id"%string) /\ exists s, value = VString s))).
Proof.
  intros Hlen. unfold getMessages_line.
  rewrite (proj2 (Z.eqb_neq _ _) Hlen).
  destruct (0 <? fieldLength ln); [|by left].
  destruct (decide (field_of ln = "retry")) as [Hretry|_].
  { destruct (parseInt (value_of ln)) as [n|]; [|by left].
    right. exists (VNumber n). split; [done|]. left. eauto. }
  destruct (decide _) as [Hfield|_]; [|by left].
  right. exists (VString (value_of ln)). split; [done|]. right. eauto.
Qed.

Lemma conforms_empty : conforms ∅.
Proof. intros key value Hlookup. by rewrite lookup_empty in Hlookup. Qed.

Lemma getMessages_line_conforms (message : EventSourceMessage) (ln : Line) :
  conforms message ->
  conforms (getMessages_line message ln).1 /\
  Forall (fun m => m <> ∅ /\ conforms m) (getMessages_line message ln).2.
Proof.
  intros Hm. destruct (Z.eq_dec (len (line ln)) 0) as [Hblank|Hlen].
  - rewrite (getMessages_line_blank _ _ Hblank). simpl.
    split; [apply conforms_empty|].
    destruct (decide (message = ∅)); [apply Forall_nil_2|].
    apply Forall_cons_2; [by split | apply Forall_nil_2].
  - destruct (getMessages_line_shape ln Hlen)
      as [Hsame|(value & Hset & Htype)].
    + rewrite Hsame. by split.
    + rewrite Hset. simpl. split; [|constructor].
      intros key value' Hlookup.
      destruct (decide (field_of ln = key)) as [<-|Hne].
      * rewrite lookup_insert_eq in Hlookup. by injection Hlookup as <-.
      * rewrite lookup_insert_ne in Hlookup by done. by apply Hm.
Qed.

Lemma getMessages_from_conforms (lines : list Line) :
  forall message : EventSourceMessage,
  conforms message ->
  Forall (fun m => m <> ∅ /\ conforms m) (getMessages_from message lines).2.
Proof.
  induction lines as [|ln lines IH]; intros message Hm; [constructor|].
  cbn [getMessages_from].
  destruct (getMessages_line_conforms message ln Hm) as [H1 Hout1].
  destruct (getMessages_line message ln) as [m1 o1]. simpl in *.
  specialize (IH m1 H1).
  destruct (getMessages_from m1 lines) as [m2 o2]. simpl in *.
  by apply Forall_app.
Qed.

(** X5. Every message that [getMessages] yields has at least one property,
    and has the shape of the interface [EventSourceMessage]: no property
    other than [id], [event], [data] and [retry], a number for [retry] and
    strings for the others. *)
Theorem getMessages_yields_conforming
    (lines : list Line) (message : EventSourceMessage) :
  message ∈ getMessages lines -> message <> ∅ /\ conforms message.
Proof.
  intros Hin.
  pose proof (getMessages_from_conforms lines ∅ conforms_empty) as Hall.
  by apply (proj1 (Forall_forall _ _) Hall).
Qed.

Lemma getMessages_yields_conforming_witness :
  (<["retry" := VNumber (Integer 42)]> {[ "id" := VString "abc" ]}
   : EventSourceMessage) <> ∅ /\
  conforms (<["retry" := VNumber (Integer 42)]> {[ "id" := VString "abc" ]}).
Proof.
  apply (getMessages_yields_conforming
           [mkLine (encode "retry: 42") 5; mkLine (encode "id: abc") 2;
            mkLine (encode "foo: bar") 3; mkLine [] (-1)]).
  vm_compute. apply elem_of_cons. left. reflexivity.
Defined.

(** X6. Groups are independent: an empty line leaves nothing behind, so the
    messages of lines that follow an empty line are those the same lines
    yield on their own, whatever came before. *)
Theorem getMessages_groups_independent
    (before after : list Line) (blank : Line) :
  len (line blank) = 0 ->
  getMessages (before ++ blank :: after)
  = getMessages (before ++ [blank]) ++ getMessages after.
Proof.
  intros Hblank. unfold getMessages.
  rewrite !getMessages_from_app. cbn [getMessages_from].
  destruct (getMessages_from ∅ before) as [m1 o1].
  rewrite (getMessages_line_blank _ _ Hblank).
  destruct (getMessages_from ∅ after) as [m2 o2]. simpl.
  by rewrite !app_nil_r, app_assoc.
Qed.

Lemma getMessages_groups_independent_witness :
  getMessages ([mkLine (encode "id: 1") 2] ++ mkLine [] (-1)
               :: [mkLine (encode "event: e") 5; mkLine [] (-1)])
  = getMessages ([mkLine (encode "id: 1") 2] ++ [mkLine [] (-1)])
    ++ getMessages [mkLine (encode "event: e") 5; mkLine [] (-1)].
Proof.
  apply (getMessages_groups_independent [mkLine (encode "id: 1") 2]
           [mkLine (encode "event: e") 5; mkLine [] (-1)] (mkLine [] (-1))).
  reflexivity.
Defined.

Lemma getMessages_drop_line (ln : Line) (before after : list Line) :
  (forall message : EventSourceMessage,
      getMessages_line message ln = (message, [])) ->
  getMessages (before ++ ln :: after) = getMessages (before ++ after).
Proof.
  intros Hsame. unfold getMessages.
  rewrite !getMessages_from_app. cbn [getMessages_from].
  destruct (getMessages_from ∅ before) as [m1 o1]. rewrite Hsame.
  by destruct (getMessages_from m1 after).
Qed.

(** X7. Lines that carry nothing can be taken out of a stream anywhere
    without changing its messages: comments, lines without separator (field
    length at most 0) and lines whose field name is not one of [id], [event],
    [data] and [retry]. *)
Theorem getMessages_ignores_unknown
    (ln : Line) (before after : list Line) :
  nonblank ln ->
  fieldLength ln <= 0 \/
  (field_of ln <> "retry"%string /\ field_of ln <> "data"%string /\
   field_of ln <> "event"%string /\ field_of ln <> "id"%string) ->
  getMessages (before ++ ln :: after) = getMessages (before ++ after).
Proof.
  intros Hlen Hign. apply getMessages_drop_line. intros message.
  destruct Hign as [Hfl|(Hretry & Hdata & Hevent & Hid)].
  - by apply getMessages_line_ignored.
  - destruct (getMessages_line_shape ln Hlen)
      as [Hsame|(value & _ & [[? _]|[[?|[?|?]] _]])]; done.
Qed.

Lemma getMessages_ignores_unknown_witness :
  getMessages ([mkLine (encode "id: abc") 2] ++ mkLine (encode "foo: null") 3
               :: [mkLine [] (-1)])
  = getMessages ([mkLine (encode "id: abc") 2] ++ [mkLine [] (-1)]).
Proof.
  apply (getMessages_ignores_unknown (mkLine (encode "foo: null") 3)
           [mkLine (encode "id: abc") 2] [mkLine [] (-1)]).
  - vm_compute. discriminate.
  - right. vm_compute. repeat split; discriminate.
Defined.

(** X8. The order of two lines with different field names does not matter:
    two neighbouring lines that are not empty and whose field names differ
    can be swapped anywhere in a stream without changing its messages. *)
Theorem getMessages_fields_commute
    (ln1 ln2 : Line) (before after : list Line) :
  nonblank ln1 -> nonblank ln2 -> field_of ln1 <> field_of ln2 ->
  getMessages (before ++ ln1 :: ln2 :: after)
  = getMessages (before ++ ln2 :: ln1 :: after).
Proof.
  intros H1 H2 Hne. unfold getMessages.
  rewrite !getMessages_from_app. cbn [getMessages_from].
  destruct (getMessages_from ∅ before) as [m o].
  destruct (getMessages_line_shape ln1 H1) as [Hs1|(v1 & Hs1 & _)];
    destruct (getMessages_line_shape ln2 H2) as [Hs2|(v2 & Hs2 & _)];
    rewrite ?Hs1, ?Hs2, ?Hs1; try done.
  by rewrite insert_insert_ne.
Qed.

Lemma getMessages_fields_commute_witness :
  getMessages ([] ++ mkLine (encode "id: 1") 2 :: mkLine (encode "data: x") 4
               :: [mkLine [] (-1)])
  = getMessages ([] ++ mkLine (encode "data: x") 4 :: mkLine (encode "id: 1") 2
                 :: [mkLine [] (-1)]).
Proof.
  apply (getMessages_fields_commute (mkLine (encode "id: 1") 2)
           (mkLine (encode "data: x") 4) [] [mkLine [] (-1)]).
  - vm_compute. discriminate.
  - vm_compute. discriminate.
  - vm_compute. discriminate.
Defined.

(** X9. There is at most one message per empty line: [getMessages] never
    yields more messages than it has read empty lines. *)
Theorem getMessages_at_most_one_per_blank (lines : list Line) :
  (length (getMessages lines)
   <= length (filter (fun ln => len (line ln) = 0%Z) lines))%nat.
Proof.
  unfold getMessages. generalize (∅ : EventSourceMessage).
  induction lines as [|ln lines IH]; intros message; [done|].
  cbn [getMessages_from].
  destruct (Z.eq_dec (len (line ln)) 0) as [Hblank|Hlen].
  - rewrite (getMessages_line_blank _ _ Hblank).
    rewrite filter_cons_True by done. specialize (IH ∅).
    destruct (getMessages_from ∅ lines) as [m2 o2]. simpl in *.
    destruct (decide (message = ∅)); simpl; lia.
  - destruct (getMessages_line_nonblank message ln Hlen) as (m1 & -> & _).
    rewrite filter_cons_False by done. specialize (IH m1).
    by destruct (getMessages_from m1 lines) as [m2 o2].
Qed.

(** ** The field and the value of a line *)

Lemma byte_at_end (a : Uint8Array) (i : Z) : len a <= i -> byte_at a i = None.
Proof.
  intros Hi. unfold byte_at. pose proof (len_nonneg a).
  destruct (Z.ltb_spec i 0); [done|].
  apply lookup_ge_None. unfold len in *. lia.
Qed.

Lemma field_value_split (name v : Uint8Array) :
  field_of (mkLine (name ++ ControlChars.Colon :: v) (len name)) = decode name
  /\
  value_of (mkLine (name ++ ControlChars.Colon :: v) (len name))
  = decode (strip_space v).
Proof.
  unfold field_of, value_of, valueOffset. cbn [line fieldLength]. split.
  - pose proof (subarray_middle [] name (ControlChars.Colon :: v)) as H.
    rewrite len_nil, Z.add_0_l in H. simpl in H. by rewrite H.
  - f_equal. destruct v as [|b v].
    + unfold byte_is. rewrite byte_at_end by (len_simpl; lia). simpl.
      replace (len name + 1) with (len (name ++ [ControlChars.Colon]))
        by (len_simpl; lia).
      replace (name ++ [ControlChars.Colon])
        with ((name ++ [ControlChars.Colon]) ++ []) at 1
        by apply app_nil_r.
      apply subarray_from_suffix.
    + replace (len name + 1) with (len (name ++ [ControlChars.Colon]))
        by (len_simpl; lia).
      replace (name ++ ControlChars.Colon :: b :: v)
        with ((name ++ [ControlChars.Colon]) ++ b :: v)
        by (by rewrite <- app_assoc).
      rewrite byte_is_middle. simpl.
      destruct (Z.eqb_spec b ControlChars.Space) as [->|Hb].
      * replace (len name + 2)
          with (len (name ++ [ControlChars.Colon; ControlChars.Space]))
          by (len_simpl; lia).
        replace ((name ++ [ControlChars.Colon]) ++ ControlChars.Space :: v)
          with ((name ++ [ControlChars.Colon; ControlChars.Space]) ++ v)
          by (by rewrite <- !app_assoc).
        apply subarray_from_suffix.
      * replace (len name + 1) with (len (name ++ [ControlChars.Colon]))
          by (len_simpl; lia).
        apply subarray_from_suffix.
Qed.

(** X10. How [getMessages] reads a line of [getLines]: the field name is
    what precedes the first colon and the value what follows it, less one
    leading space when there is one and no more than one; a colon that ends
    the line gives the empty value. *)
Theorem getLines_field_and_value
    (chunks : list Uint8Array) (out : list Line) (ln : Line)
    (name v : Uint8Array) :
  getLines chunks = Some out -> ln ∈ out ->
  line ln = name ++ ControlChars.Colon :: v -> ControlChars.Colon ∉ name ->
  field_of ln = decode name /\ value_of ln = decode (strip_space v).
Proof.
  intros Hout Hin Hline Hname.
  destruct (getLines_line_ok chunks out ln Hout Hin) as [_ Hfl].
  rewrite Hline, (first_colon_at _ _ Hname) in Hfl.
  destruct ln as [l fl]. simpl in *. subst l fl.
  apply field_value_split.
Qed.

Lemma getLines_field_and_value_witness :
  field_of (mkLine (encode "data:  two spaces") 4) = decode (encode "data") /\
  value_of (mkLine (encode "data:  two spaces") 4)
  = decode (strip_space (encode "  two spaces")).
Proof.
  apply (getLines_field_and_value
           [encode "data:  two"; encode " spaces" ++ [10]]
           [mkLine (encode "data:  two spaces") 4]).
  - vm_compute. reflexivity.
  - apply elem_of_cons. left. reflexivity.
  - vm_compute. reflexivity.
  - vm_compute. intros Hin.
    repeat (apply elem_of_cons in Hin as [Hin|Hin]; [discriminate|]).
    by apply not_elem_of_nil in Hin.
Defined.

(** X11. A field length at or beyond the end of the line is harmless: the
    views are clamped, the field name is the whole line and the value is the
    empty string. So a line "id" given with field length 2 sets the id to the
    empty string. *)
Theorem field_length_beyond_line (ln : Line) (message : EventSourceMessage) :
  nonblank ln -> len (line ln) <= fieldLength ln ->
  field_of ln = decode (line ln) /\ value_of ln = ""%string /\
  (decode (line ln) = "id"%string ->
   getMessages_line message ln = (<["id" := VString ""]> message, [])).
Proof.
  intros Hlen Hfl. pose proof (len_nonneg (line ln)) as Hnn.
  assert (field_of ln = decode (line ln)) as Hfield.
  { unfold field_of, subarray, relative_index. simpl (0 <? 0).
    destruct (Z.ltb_spec (fieldLength ln) 0); [lia|].
    rewrite (Z.min_l 0), (Z.min_r (fieldLength ln)) by lia.
    rewrite Z.sub_0_r. simpl drop.
    unfold len. rewrite Nat2Z.id. by rewrite firstn_all. }
  assert (value_of ln = ""%string) as Hvalue.
  { unfold value_of, valueOffset, byte_is.
    rewrite byte_at_end by lia.
    unfold subarray_from, subarray, relative_index.
    destruct (Z.ltb_spec (fieldLength ln + 1) 0); [lia|].
    destruct (Z.ltb_spec (len (line ln)) 0); [lia|].
    rewrite (Z.min_r (fieldLength ln + 1)), (Z.min_l (len (line ln)))
      by lia.
    rewrite Z.sub_diag. reflexivity. }
  split; [done|]. split; [done|]. intros Hid.
  rewrite getMessages_line_string; [|done|unfold nonblank in Hlen; lia|].
  - by rewrite Hfield, Hvalue, Hid.
  - right. right. by rewrite Hfield.
Qed.

Lemma field_length_beyond_line_witness :
  field_of (mkLine (encode "id") 2) = decode (encode "id") /\
  value_of (mkLine (encode "id") 2) = ""%string /\
  (decode (encode "id") = "id"%string ->
   getMessages_line {[ "id" := VString "foo" ]} (mkLine (encode "id") 2)
   = (<["id" := VString ""]> {[ "id" := VString "foo" ]}, [])).
Proof.
  apply (field_length_beyond_line (mkLine (encode "id") 2)
           {[ "id" := VString "foo" ]}).
  - vm_compute. discriminate.
  - vm_compute. discriminate.
Defined.

(** ** A message written on the wire and read back *)

Ltac not_in_bytes :=
  let Hin := fresh "Hin" in
  vm_compute; intros Hin;
  repeat (apply elem_of_cons in Hin as [Hin|Hin]; [discriminate|]);
  by apply not_elem_of_nil in Hin.

Lemma is_digit_not_terminator (ds : Uint8Array) :
  Forall (fun b => is_digit b = true) ds -> no_terminator ds.
Proof.
  intros Hds. eapply Forall_impl; [exact Hds|].
  intros b Hb. apply is_digit_range in Hb.
  unfold is_terminator, ControlChars.CarriageReturn, ControlChars.NewLine.
  apply orb_false_intro; apply Z.eqb_neq; lia.
Qed.

Lemma byte_of_ascii_of_byte (b : Z) :
  0 <= b < 256 -> byte_of_ascii (ascii_of_byte b) = b.
Proof.
  intros Hb. unfold byte_of_ascii, ascii_of_byte.
  rewrite Z.mod_small by lia. rewrite N_ascii_embedding by lia. lia.
Qed.

Lemma encode_decode_digits (ds : Uint8Array) :
  Forall (fun b => is_digit b = true) ds -> encode (decode ds) = ds.
Proof.
  intros Hds. unfold encode, decode.
  assert (strip_bom ds = ds) as ->.
  { destruct ds as [|b0 [|b1 [|b2 ds]]]; try done. simpl.
    apply Forall_cons in Hds as [Hb0 _]. apply is_digit_range in Hb0.
    destruct (Z.eqb_spec b0 239); [lia | done]. }
  rewrite list_ascii_of_string_of_list_ascii.
  induction Hds as [|b ds Hb Hds IH]; [done|].
  cbn [fmap list_fmap] in *. rewrite IH. f_equal.
  apply byte_of_ascii_of_byte. apply is_digit_range in Hb. lia.
Qed.

Lemma parseInt_decode_digits (ds : Uint8Array) :
  ds <> [] -> Forall (fun b => is_digit b = true) ds ->
  parseInt (decode ds) = Some (number_of 1 (digits_value 0 ds)).
Proof.
  intros Hne Hds. unfold parseInt. rewrite (encode_decode_digits ds Hds).
  pose proof (parseInt_codes_prefix [] [] ds [] ltac:(constructor)
                ltac:(by left) Hne Hds ltac:(done)) as H.
  simpl in H. rewrite app_nil_r in H. by rewrite H.
Qed.

(** A line "name: value", as [getLines] yields it, for one of the string
    fields. *)
Lemma getMessages_line_string_field
    (message : EventSourceMessage) (name v : Uint8Array) :
  name <> [] -> ControlChars.Colon ∉ name ->
  decode name = "data"%string \/ decode name = "event"%string \/
  decode name = "id"%string ->
  getMessages_line message
    (mkLine (name ++ ControlChars.Colon :: ControlChars.Space :: v)
       (first_colon (name ++ ControlChars.Colon :: ControlChars.Space :: v)))
  = (<[decode name := VString (decode v)]> message, []).
Proof.
  intros Hne Hcolon Hfield. rewrite (first_colon_at _ _ Hcolon).
  destruct (field_value_split name (ControlChars.Space :: v)) as [Hf Hv].
  assert (0 < len name) as Hpos.
  { pose proof (len_nonneg name). destruct (Z.eq_dec (len name) 0) as [E|]; [|lia].
    by apply len_zero in E. }
  rewrite getMessages_line_string.
  - by rewrite Hf, Hv.
  - unfold nonblank. cbn [line]. len_simpl. pose proof (len_nonneg v). lia.
  - done.
  - by rewrite Hf.
Qed.

Lemma getMessages_line_retry_field
    (message : EventSourceMessage) (name ds : Uint8Array) :
  name <> [] -> ControlChars.Colon ∉ name -> decode name = "retry"%string ->
  ds <> [] -> Forall (fun b => is_digit b = true) ds ->
  getMessages_line message
    (mkLine (name ++ ControlChars.Colon :: ControlChars.Space :: ds)
       (first_colon (name ++ ControlChars.Colon :: ControlChars.Space :: ds)))
  = (<["retry" := VNumber (number_of 1 (digits_value 0 ds))]> message, []).
Proof.
  intros Hne Hcolon Hfield Hds Hdigits. rewrite (first_colon_at _ _ Hcolon).
  destruct (field_value_split name (ControlChars.Space :: ds)) as [Hf Hv].
  assert (0 < len name) as Hpos.
  { pose proof (len_nonneg name). destruct (Z.eq_dec (len name) 0) as [E|]; [|lia].
    by apply len_zero in E. }
  rewrite getMessages_line_retry.
  - rewrite Hv. simpl strip_space. by rewrite parseInt_decode_digits.
  - unfold nonblank. cbn [line]. len_simpl. pose proof (len_nonneg ds). lia.
  - done.
  - by rewrite Hf.
Qed.

(** X12. A message written on the wire is read back: the lines "id: ",
    "event: ", "retry: " and "data: ", each followed by its value and a line
    feed, then an empty line, yield exactly one message with these four
    values, however the bytes are cut into chunks. The values are any bytes
    without line terminator, decoded; the retry is any digits, as the number
    that [parseInt] makes of them, which is the integer they denote when it
    is positive and at most 2^53. *)
Theorem parseStream_reads_back_message
    (chunks : list Uint8Array) (vi ve vd ds : Uint8Array) :
  no_terminator vi -> no_terminator ve -> no_terminator vd ->
  ds <> [] -> Forall (fun b => is_digit b = true) ds ->
  all_bytes chunks
  = encode "id: " ++ vi ++ [10] ++ encode "event: " ++ ve ++ [10]
    ++ encode "retry: " ++ ds ++ [10] ++ encode "data: " ++ vd ++ [10; 10] ->
  parseStream chunks
  = Some [ <["data" := VString (decode vd)]>
             (<["retry" := VNumber (number_of 1 (digits_value 0 ds))]>
                (<["event" := VString (decode ve)]>
                   (<["id" := VString (decode vi)]> ∅))) ] /\
  (0 < digits_value 0 ds <= max_exact ->
   parseStream chunks
   = Some [ <["data" := VString (decode vd)]>
              (<["retry" := VNumber (Integer (digits_value 0 ds))]>
                 (<["event" := VString (decode ve)]>
                    (<["id" := VString (decode vi)]> ∅))) ]).
Proof.
  intros Hvi Hve Hvd Hne Hds Hbytes.
  assert (forall n, 0 < n <= max_exact -> number_of 1 n = Integer n)
    as Hexact.
  { intros n [Hpos Hmax]. unfold number_of.
    destruct (Z.eqb_spec n 0); [lia|].
    destruct (Z.leb_spec n max_exact); [|lia].
    by destruct n. }
  cut (parseStream chunks
       = Some [ <["data" := VString (decode vd)]>
                  (<["retry" := VNumber (number_of 1 (digits_value 0 ds))]>
                     (<["event" := VString (decode ve)]>
                        (<["id" := VString (decode vi)]> ∅))) ]).
  { intros Hparse. split; [exact Hparse|].
    intros Hrange. by rewrite Hparse, (Hexact _ Hrange). }
  pose proof (is_digit_not_terminator ds Hds) as Hdt.
  assert (forall (p v : Uint8Array),
            no_terminator p -> no_terminator v -> no_terminator (p ++ v))
    as Happ by (intros p v Hp Hv; by apply Forall_app).
  assert (all_bytes chunks
          = wire_lines [(encode "id: " ++ vi, EndLF);
                        (encode "event: " ++ ve, EndLF);
                        (encode "retry: " ++ ds, EndLF);
                        (encode "data: " ++ vd, EndLF); ([], EndLF)] ++ [])
    as Hwire.
  { rewrite Hbytes. cbn [wire_lines terminator_bytes].
    rewrite app_nil_r, <- !app_assoc. reflexivity. }
  unfold parseStream. rewrite getLines_run, Hwire.
  rewrite lines_of_wire_lines; [|repeat split; try done|constructor].
  2-5: apply Happ; [vm_compute; repeat constructor | done].
  2: constructor.
  cbn [fmap list_fmap fst option_fmap option_map]. f_equal.
  unfold getMessages. cbn [getMessages_from].
  change (encode "id: " ++ vi)
    with (encode "id" ++ ControlChars.Colon :: ControlChars.Space :: vi).
  change (encode "event: " ++ ve)
    with (encode "event" ++ ControlChars.Colon :: ControlChars.Space :: ve).
  change (encode "retry: " ++ ds)
    with (encode "retry" ++ ControlChars.Colon :: ControlChars.Space :: ds).
  change (encode "data: " ++ vd)
    with (encode "data" ++ ControlChars.Colon :: ControlChars.Space :: vd).
  rewrite (getMessages_line_string_field ∅ (encode "id") vi);
    [|done|not_in_bytes|by right; right].
  rewrite (getMessages_line_string_field _ (encode "event") ve);
    [|done|not_in_bytes|by right; left].
  rewrite (getMessages_line_retry_field _ (encode "retry") ds);
    [|done|not_in_bytes|done|done|done].
  rewrite (getMessages_line_string_field _ (encode "data") vd);
    [|done|not_in_bytes|by left].
  rewrite getMessages_line_blank by done.
  change (decode (encode "id")) with "id"%string.
  change (decode (encode "event")) with "event"%string.
  change (decode (encode "data")) with "data"%string.
  rewrite decide_False by apply insert_non_empty. reflexivity.
Qed.

Lemma parseStream_reads_back_message_witness :
  parseStream [encode "id: 7" ++ [10] ++ encode "eve";
               encode "nt: add" ++ [10] ++ encode "retry: 30";
               encode "00" ++ [10] ++ encode "data: {}" ++ [10]; [10]]
  = Some [ <["data" := VString "{}"]>
             (<["retry" := VNumber (Integer 3000)]>
                (<["event" := VString "add"]>
                   (<["id" := VString "7"]> ∅))) ].
Proof.
  refine (proj1 _).
  apply (parseStream_reads_back_message
           [encode "id: 7" ++ [10] ++ encode "eve";
            encode "nt: add" ++ [10] ++ encode "retry: 30";
            encode "00" ++ [10] ++ encode "data: {}" ++ [10]; [10]]
           (encode "7") (encode "add") (encode "{}") (encode "3000")).
  - vm_compute. repeat constructor.
  - vm_compute. repeat constructor.
  - vm_compute. repeat constructor.
  - vm_compute. discriminate.
  - vm_compute. repeat constructor.
  - vm_compute. reflexivity.
Defined.

(** ** Streaming *)

Lemma getMessages_app (lines more : list Line) :
  exists messages',
    getMessages (lines ++ more) = getMessages lines ++ messages'.
Proof.
  unfold getMessages. rewrite getMessages_from_app.
  destruct (getMessages_from ∅ lines) as [m1 o1].
  destruct (getMessages_from m1 more) as [m2 o2]. by exists o2.
Qed.

(** X13. What has been yielded stays: the lines, and the messages, of a
    stream that goes on with more chunks begin with the lines, and the
    messages, yielded before these chunks arrived. *)
Theorem parseStream_yields_incrementally (chunks more : list Uint8Array) :
  (exists lines lines',
      getLines chunks = Some lines /\
      getLines (chunks ++ more) = Some (lines ++ lines')) /\
  (exists messages messages',
      parseStream chunks = Some messages /\
      parseStream (chunks ++ more) = Some (messages ++ messages')).
Proof.
  unfold parseStream. rewrite !getLines_run, all_bytes_app, lines_of_app.
  split.
  - by eexists _, _.
  - destruct (getMessages_app (lines_of (all_bytes chunks))
                (byte_run (byte_run pending_start (all_bytes chunks)).1
                   (all_bytes more)).2) as [messages' Hmessages].
    exists (getMessages (lines_of (all_bytes chunks))), messages'.
    simpl. by rewrite Hmessages.
Qed.

(** X14. The last [id] and the last [event] of a message win: of two
    neighbouring lines that set the same of these two fields, the first can
    be taken out of the stream without changing its messages. *)
Theorem getMessages_last_id_event_wins
    (ln1 ln2 : Line) (before after : list Line) :
  nonblank ln1 -> nonblank ln2 ->
  0 < fieldLength ln1 -> 0 < fieldLength ln2 ->
  field_of ln1 = field_of ln2 ->
  field_of ln2 = "id"%string \/ field_of ln2 = "event"%string ->
  getMessages (before ++ ln1 :: ln2 :: after)
  = getMessages (before ++ ln2 :: after).
Proof.
  intros H1 H2 Hfl1 Hfl2 Hsame Hfield. unfold getMessages.
  rewrite !getMessages_from_app. cbn [getMessages_from].
  destruct (getMessages_from ∅ before) as [m o].
  assert (field_of ln2 = "data"%string \/ field_of ln2 = "event"%string \/
          field_of ln2 = "id"%string) as Hf2 by (destruct Hfield; auto).
  assert (field_of ln1 = "data"%string \/ field_of ln1 = "event"%string \/
          field_of ln1 = "id"%string) as Hf1 by (by rewrite Hsame).
  rewrite (getMessages_line_string m ln1 H1 Hfl1 Hf1).
  rewrite !(fun m' => getMessages_line_string m' ln2 H2 Hfl2 Hf2).
  rewrite Hsame, insert_insert_eq.
  by destruct (getMessages_from _ after).
Qed.

Lemma getMessages_last_id_event_wins_witness :
  getMessages ([] ++ mkLine (encode "id: foo") 2 :: mkLine (encode "id:") 2
               :: [mkLine [] (-1)])
  = getMessages ([] ++ mkLine (encode "id:") 2 :: [mkLine [] (-1)]).
Proof.
  apply (getMessages_last_id_event_wins (mkLine (encode "id: foo") 2)
           (mkLine (encode "id:") 2) [] [mkLine [] (-1)]).
  - vm_compute. discriminate.
  - vm_compute. discriminate.
  - reflexivity.
  - reflexivity.
  - vm_compute. reflexivity.
  - left. vm_compute. reflexivity.
Defined.
